(** * Memento text editor: undo/redo history over editor snapshots

    A shallow embedding of the TypeScript sources

    - [TextEditor.ts] and [HistoryManager.ts] (the originator, the memento
      and the caretaker without argument checks): module [Plain];
    - [src/models/editorSnapshot.ts], [src/models/textEditor.ts] and
      [src/managers/historyManager.ts] (the same classes with argument
      checks and [try]/[catch]): module [Checked].

    Methods mutate [this] field by field and may throw, so they are written
    in a state monad whose state survives a [throw], exactly as the fields
    of a JavaScript object survive an exception.  Console output is not
    modelled. *)

From Stdlib Require Import ZArith String Ascii Bool Lia.
From stdpp Require Import base list.

Local Open Scope Z_scope.

(* ===================================================================== *)
(** ** JavaScript values and primitives *)
(* ===================================================================== *)

Module Js.

(** A [number] argument.  Integer-valued numbers carry their value, and
    arithmetic on them is exact (the safe-integer range of JavaScript);
    for the others only what the guards of the program can observe is
    kept: a finite non-integer lies strictly between [floor] and
    [floor + 1]. *)
Inductive number : Type :=
| Int (z : Z)
| Frac (floor : Z)
| Infinity (negative : bool)
| NaN.

(** [Number.isInteger(x)] *)
Definition isInteger (x : number) : bool :=
  match x with
  | Int _ => true
  | _ => false
  end.

(** [x < 0] *)
Definition lt0 (x : number) : bool :=
  match x with
  | Int z => z <? 0
  | Frac floor => floor <? 0
  | Infinity negative => negative
  | NaN => false
  end.

(** [x <= 0] *)
Definition le0 (x : number) : bool :=
  match x with
  | Int z => z <=? 0
  | Frac floor => floor <? 0
  | Infinity negative => negative
  | NaN => false
  end.

(** A number that is negative or not an integer: what the checks of the
    editor reject. *)
Definition negative_or_non_integer (x : number) : Prop :=
  match x with
  | Int z => z < 0
  | Frac _ | Infinity _ | NaN => True
  end.

(** A number that is at most zero or not an integer. *)
Definition non_positive_or_non_integer (x : number) : Prop :=
  match x with
  | Int z => z <= 0
  | Frac _ | Infinity _ | NaN => True
  end.

(** The first [n] characters of [s], and [s] without them. *)
Fixpoint str_take (n : nat) (s : string) : string :=
  match n, s with
  | S n', String c s' => String c (str_take n' s')
  | _, _ => EmptyString
  end.

Fixpoint str_drop (n : nat) (s : string) : string :=
  match n, s with
  | S n', String _ s' => str_drop n' s'
  | _, _ => s
  end.

(** An index argument of [substring] is clamped to [0 .. length]. *)
Definition clamp (x : Z) (len : nat) : nat :=
  Z.to_nat (Z.min (Z.max x 0) (Z.of_nat len)).

(** [s.substring(a, b)]: both indices are clamped, and swapped when
    [a > b]. *)
Definition substring (s : string) (a b : Z) : string :=
  let a' := clamp a (String.length s) in
  let b' := clamp b (String.length s) in
  let lo := Nat.min a' b' in
  let hi := Nat.max a' b' in
  str_take (hi - lo) (str_drop lo s).

(** [s.substring(a)]: the end index defaults to the length. *)
Definition substring_from (s : string) (a : Z) : string :=
  substring s a (Z.of_nat (String.length s)).

(** [arr.slice(0, e)]: a negative end counts from the end of the array. *)
Definition slice0 {A : Type} (arr : list A) (e : Z) : list A :=
  let len := Z.of_nat (length arr) in
  let k := if e <? 0 then Z.max (len + e) 0 else Z.min e len in
  take (Z.to_nat k) arr.

(** [arr[i]]: [undefined] outside the array. *)
Definition index {A : Type} (arr : list A) (i : Z) : option A :=
  if i <? 0 then None else arr !! Z.to_nat i.

(** [arr.push(x)], [arr.shift()] and [arr.splice(0, n)], as the array
    they leave behind. *)
Definition push {A : Type} (x : A) (arr : list A) : list A := arr ++ [x].
Definition shift {A : Type} (arr : list A) : list A := drop 1 arr.
Definition splice0 {A : Type} (n : Z) (arr : list A) : list A :=
  drop (Z.to_nat n) arr.

End Js.

(* ===================================================================== *)
(** ** Methods as state transformers that may throw *)
(* ===================================================================== *)

Inductive outcome (A : Type) : Type :=
| Returned (a : A)
| Thrown (error : string).
Arguments Returned {A} a.
Arguments Thrown {A} error.

(** A method with receiver state [S] and result [A].  The state after a
    [throw] is the state reached when it was thrown. *)
Definition M (S A : Type) : Type := S -> outcome A * S.

#[global] Instance M_ret {S : Type} : MRet (M S) :=
  fun A (a : A) (s : S) => (Returned a, s).

#[global] Instance M_bind {S : Type} : MBind (M S) :=
  fun A B (k : A -> M S B) (m : M S A) (s : S) =>
    match m s with
    | (Returned a, s') => k a s'
    | (Thrown error, s') => (Thrown error, s')
    end.

Definition throw {S A : Type} (error : string) : M S A :=
  fun s => (Thrown error, s).

Definition gets {S A : Type} (f : S -> A) : M S A :=
  fun s => (Returned (f s), s).

Definition modify {S : Type} (f : S -> S) : M S unit :=
  fun s => (Returned tt, f s).

(** [try { body } catch (error) { handler }] *)
Definition try_catch {S A : Type} (body : M S A) (handler : string -> M S A)
  : M S A :=
  fun s =>
    match body s with
    | (Returned a, s') => (Returned a, s')
    | (Thrown error, s') => handler error s'
    end.

(** [if (c) { throw ... }] *)
Definition throw_if {S : Type} (c : bool) (error : string) : M S unit :=
  if c then throw error else mret tt.

Definition result {S A : Type} (r : outcome A * S) : outcome A := fst r.
Definition state {S A : Type} (r : outcome A * S) : S := snd r.

(* ===================================================================== *)
(** ** The three classes: fields *)
(* ===================================================================== *)

(** [EditorSnapshot]: the projections are the class's getters.  The
    timestamp is the clock reading taken by [new Date()], in milliseconds. *)
Record EditorSnapshot : Type := {
  getContent : string;
  getCursorPosition : Z;
  getFontSize : Z;
  getTimestamp : Z
}.

Record TextEditor : Type := {
  content : string;
  cursorPosition : Z;
  fontSize : Z
}.

Record HistoryManager : Type := {
  snapshots : list EditorSnapshot;
  currentIndex : Z;
  maxHistorySize : Z
}.

Definition set_content (v : string) (this : TextEditor) : TextEditor :=
  {| content := v; cursorPosition := cursorPosition this;
     fontSize := fontSize this |}.
Definition set_cursorPosition (v : Z) (this : TextEditor) : TextEditor :=
  {| content := content this; cursorPosition := v;
     fontSize := fontSize this |}.
Definition set_fontSize (v : Z) (this : TextEditor) : TextEditor :=
  {| content := content this; cursorPosition := cursorPosition this;
     fontSize := v |}.

Definition set_snapshots (v : list EditorSnapshot) (this : HistoryManager)
  : HistoryManager :=
  {| snapshots := v; currentIndex := currentIndex this;
     maxHistorySize := maxHistorySize this |}.
Definition set_currentIndex (v : Z) (this : HistoryManager) : HistoryManager :=
  {| snapshots := snapshots this; currentIndex := v;
     maxHistorySize := maxHistorySize this |}.
Definition set_maxHistorySize (v : Z) (this : HistoryManager) : HistoryManager :=
  {| snapshots := snapshots this; currentIndex := currentIndex this;
     maxHistorySize := v |}.

(** [new TextEditor()] and [new HistoryManager()] *)
Definition new_TextEditor : TextEditor :=
  {| content := EmptyString; cursorPosition := 0; fontSize := 12 |}.
Definition new_HistoryManager : HistoryManager :=
  {| snapshots := []; currentIndex := -1; maxHistorySize := 50 |}.

(** A caretaker method receives the editor by reference: it runs on the
    pair of its own fields and the editor's. *)
Record World : Type := {
  history : HistoryManager;
  editor : TextEditor
}.

Definition on_history {A : Type} (m : M HistoryManager A) : M World A :=
  fun w =>
    let (r, h) := m (history w) in
    (r, {| history := h; editor := editor w |}).

Definition on_editor {A : Type} (m : M TextEditor A) : M World A :=
  fun w =>
    let (r, e) := m (editor w) in
    (r, {| history := history w; editor := e |}).

Definition new_World : World :=
  {| history := new_HistoryManager; editor := new_TextEditor |}.

(** The three state fields of an editor and of a snapshot. *)
Definition editor_fields (e : TextEditor) : string * Z * Z :=
  (content e, cursorPosition e, fontSize e).
Definition snapshot_fields (s : EditorSnapshot) : string * Z * Z :=
  (getContent s, getCursorPosition s, getFontSize s).

(** The invariant of the document state:
    [0 <= cursorPosition <= content.length]. *)
Definition cursor_in_text (e : TextEditor) : Prop :=
  0 <= cursorPosition e <= Z.of_nat (String.length (content e)).

(* ===================================================================== *)
(** ** [TextEditor.ts] and [HistoryManager.ts] *)
(* ===================================================================== *)

Module Plain.
Import Js.

(** [new EditorSnapshot(content, cursorPosition, fontSize)] *)
Definition new_EditorSnapshot (now : Z) (content : string)
    (cursorPosition fontSize : Z) : EditorSnapshot :=
  {| getContent := content; getCursorPosition := cursorPosition;
     getFontSize := fontSize; getTimestamp := now |}.

Definition write (text : string) : M TextEditor unit :=
  before ← gets (fun this => substring (content this) 0 (cursorPosition this));
  after ← gets (fun this => substring_from (content this) (cursorPosition this));
  modify (set_content (before ++ text ++ after)%string);;
  modify (fun this =>
    set_cursorPosition (cursorPosition this + Z.of_nat (String.length text)) this).

Definition delete (count : Z) : M TextEditor unit :=
  this ← gets id;
  if cursorPosition this >=? count then
    before ← gets (fun this =>
      substring (content this) 0 (cursorPosition this - count));
    after ← gets (fun this =>
      substring_from (content this) (cursorPosition this));
    modify (set_content (before ++ after)%string);;
    modify (fun this => set_cursorPosition (cursorPosition this - count) this)
  else mret tt.

Definition setCursor (position : Z) : M TextEditor unit :=
  modify (fun this =>
    set_cursorPosition
      (Z.max 0 (Z.min position (Z.of_nat (String.length (content this)))))
      this).

Definition setFontSize (size : Z) : M TextEditor unit :=
  modify (set_fontSize size).

Definition createSnapshot (now : Z) : M TextEditor EditorSnapshot :=
  gets (fun this =>
    new_EditorSnapshot now (content this) (cursorPosition this) (fontSize this)).

(** [restore(snapshot)]: calling a getter of [undefined] is a
    [TypeError], raised before any field is assigned. *)
Definition restore (snapshot : option EditorSnapshot) : M TextEditor unit :=
  match snapshot with
  | None => throw "TypeError"
  | Some snapshot =>
      modify (set_content (getContent snapshot));;
      modify (set_cursorPosition (getCursorPosition snapshot));;
      modify (set_fontSize (getFontSize snapshot))
  end.

Definition saveState (now : Z) : M World unit :=
  on_history (modify (fun this =>
    set_snapshots (slice0 (snapshots this) (currentIndex this + 1)) this));;
  snapshot ← on_editor (createSnapshot now);
  on_history (modify (fun this => set_snapshots (push snapshot (snapshots this)) this));;
  this ← gets history;
  if Z.of_nat (length (snapshots this)) >? maxHistorySize this then
    on_history (modify (fun this => set_snapshots (shift (snapshots this)) this))
  else
    on_history (modify (fun this => set_currentIndex (currentIndex this + 1) this)).

Definition undo : M World bool :=
  this ← gets history;
  if currentIndex this >? 0 then
    on_history (modify (fun this => set_currentIndex (currentIndex this - 1) this));;
    snapshot ← gets (fun w => index (snapshots (history w)) (currentIndex (history w)));
    on_editor (restore snapshot);;
    mret true
  else mret false.

Definition redo : M World bool :=
  this ← gets history;
  if currentIndex this <? Z.of_nat (length (snapshots this)) - 1 then
    on_history (modify (fun this => set_currentIndex (currentIndex this + 1) this));;
    snapshot ← gets (fun w => index (snapshots (history w)) (currentIndex (history w)));
    on_editor (restore snapshot);;
    mret true
  else mret false.

Definition canUndo (this : HistoryManager) : bool :=
  currentIndex this >? 0.

Definition canRedo (this : HistoryManager) : bool :=
  currentIndex this <? Z.of_nat (length (snapshots this)) - 1.

(** [getHistoryInfo()] reports these two numbers. *)
Definition getHistoryInfo (this : HistoryManager) : Z * Z :=
  (Z.of_nat (length (snapshots this)), currentIndex this).

Definition clearHistory : M HistoryManager unit :=
  modify (set_snapshots []);;
  modify (set_currentIndex (-1)).

End Plain.

(* ===================================================================== *)
(** ** [src/models/] and [src/managers/]: the classes with argument checks *)
(* ===================================================================== *)

Module Checked.
Import Js.

(** [try { body } catch (error) { console.error(...); throw error; }] *)
Definition rethrowing {S A : Type} (body : M S A) : M S A :=
  try_catch body (fun error => throw error).

(** [new EditorSnapshot(content, cursorPosition, fontSize)].  The
    arguments are checked before any field is set; [content] is a string
    by its type. *)
Definition new_EditorSnapshot (now : Z) (content : string)
    (cursorPosition fontSize : number) : outcome EditorSnapshot :=
  if lt0 cursorPosition || negb (isInteger cursorPosition) then
    Thrown "Invalid cursor position"
  else if le0 fontSize || negb (isInteger fontSize) then
    Thrown "Invalid font size"
  else
    match cursorPosition, fontSize with
    | Int cursorPosition, Int fontSize =>
        Returned {| getContent := content;
                    getCursorPosition := cursorPosition;
                    getFontSize := fontSize; getTimestamp := now |}
    | Int _, _ => Thrown "Invalid font size"
    | _, _ => Thrown "Invalid cursor position"
    end.

Definition isValid (this : EditorSnapshot) : bool :=
  (getCursorPosition this >=? 0) && (getFontSize this >? 0).

(** [!text] holds of the empty string only. *)
Definition is_empty (text : string) : bool :=
  match text with
  | EmptyString => true
  | String _ _ => false
  end.

Definition write (text : string) : M TextEditor unit :=
  rethrowing (
    throw_if (is_empty text) "Invalid text input";;
    before ← gets (fun this => substring (content this) 0 (cursorPosition this));
    after ← gets (fun this => substring_from (content this) (cursorPosition this));
    modify (set_content (before ++ text ++ after)%string);;
    modify (fun this =>
      set_cursorPosition (cursorPosition this + Z.of_nat (String.length text)) this)).

Definition delete (count : number) : M TextEditor unit :=
  rethrowing (
    throw_if (lt0 count || negb (isInteger count)) "Invalid delete count";;
    match count with
    | Int count =>
        this ← gets id;
        if cursorPosition this >=? count then
          before ← gets (fun this =>
            substring (content this) 0 (cursorPosition this - count));
          after ← gets (fun this =>
            substring_from (content this) (cursorPosition this));
          modify (set_content (before ++ after)%string);;
          modify (fun this => set_cursorPosition (cursorPosition this - count) this)
        else mret tt (* console.warn *)
    | _ => throw "Invalid delete count" (* not an integer: already thrown *)
    end).

Definition setCursor (position : number) : M TextEditor unit :=
  rethrowing (
    throw_if (lt0 position || negb (isInteger position)) "Invalid cursor position";;
    match position with
    | Int position =>
        modify (fun this =>
          set_cursorPosition
            (Z.max 0 (Z.min position (Z.of_nat (String.length (content this)))))
            this)
    | _ => throw "Invalid cursor position" (* not an integer: already thrown *)
    end).

Definition setFontSize (size : number) : M TextEditor unit :=
  rethrowing (
    throw_if (le0 size || negb (isInteger size)) "Invalid font size";;
    match size with
    | Int size => modify (set_fontSize size)
    | _ => throw "Invalid font size" (* not an integer: already thrown *)
    end).

Definition createSnapshot (now : Z) : M TextEditor EditorSnapshot :=
  rethrowing (fun this =>
    (new_EditorSnapshot now (content this)
       (Int (cursorPosition this)) (Int (fontSize this)), this)).

Definition restore (snapshot : option EditorSnapshot) : M TextEditor unit :=
  rethrowing (
    match snapshot with
    | None => throw "Invalid snapshot"
    | Some snapshot =>
        modify (set_content (getContent snapshot));;
        modify (set_cursorPosition (getCursorPosition snapshot));;
        modify (set_fontSize (getFontSize snapshot))
    end).

(** The caretaker.  Its [editor] argument is an object by its type, so
    the [!editor] guards never fire and are left out. *)
Definition saveState (now : Z) : M World unit :=
  rethrowing (
    on_history (modify (fun this =>
      set_snapshots (slice0 (snapshots this) (currentIndex this + 1)) this));;
    snapshot ← on_editor (createSnapshot now);
    throw_if (negb (isValid snapshot)) "Invalid snapshot created";;
    on_history (modify (fun this => set_snapshots (push snapshot (snapshots this)) this));;
    this ← gets history;
    if Z.of_nat (length (snapshots this)) >? maxHistorySize this then
      on_history (modify (fun this => set_snapshots (shift (snapshots this)) this))
    else
      on_history (modify (fun this => set_currentIndex (currentIndex this + 1) this))).

(** [snapshot.isValid()] on [undefined] is a [TypeError]. *)
Definition check_in_history (snapshot : option EditorSnapshot) : M World unit :=
  match snapshot with
  | None => throw "TypeError"
  | Some snapshot => throw_if (negb (isValid snapshot)) "Invalid snapshot in history"
  end.

Definition undo : M World bool :=
  try_catch (
    this ← gets history;
    if currentIndex this >? 0 then
      on_history (modify (fun this => set_currentIndex (currentIndex this - 1) this));;
      snapshot ← gets (fun w => index (snapshots (history w)) (currentIndex (history w)));
      check_in_history snapshot;;
      on_editor (restore snapshot);;
      mret true
    else mret false)
  (fun error => mret false).

Definition redo : M World bool :=
  try_catch (
    this ← gets history;
    if currentIndex this <? Z.of_nat (length (snapshots this)) - 1 then
      on_history (modify (fun this => set_currentIndex (currentIndex this + 1) this));;
      snapshot ← gets (fun w => index (snapshots (history w)) (currentIndex (history w)));
      check_in_history snapshot;;
      on_editor (restore snapshot);;
      mret true
    else mret false)
  (fun error => mret false).

Definition canUndo (this : HistoryManager) : bool :=
  currentIndex this >? 0.

Definition canRedo (this : HistoryManager) : bool :=
  currentIndex this <? Z.of_nat (length (snapshots this)) - 1.

Definition getHistoryInfo (this : HistoryManager) : Z * Z :=
  (Z.of_nat (length (snapshots this)), currentIndex this).

Definition clearHistory : M HistoryManager unit :=
  rethrowing (
    modify (set_snapshots []);;
    modify (set_currentIndex (-1))).

Definition setMaxHistorySize (size : number) : M HistoryManager unit :=
  rethrowing (
    throw_if (le0 size || negb (isInteger size)) "Invalid history size";;
    match size with
    | Int size =>
        modify (set_maxHistorySize size);;
        this ← gets id;
        if Z.of_nat (length (snapshots this)) >? size then
          let excess := Z.of_nat (length (snapshots this)) - size in
          modify (fun this => set_snapshots (splice0 excess (snapshots this)) this);;
          modify (fun this =>
            set_currentIndex (Z.max 0 (currentIndex this - excess)) this)
        else mret tt
    | _ => throw "Invalid history size" (* not an integer: already thrown *)
    end).

End Checked.

(* ===================================================================== *)
(** ** [EditorCommands.ts]: save, then edit *)
(* ===================================================================== *)

Module Commands.

(** [new WriteCommand(editor, history, text).execute()] *)
Definition WriteCommand_execute (now : Z) (text : string) : M World unit :=
  Plain.saveState now;;
  on_editor (Plain.write text).

(** [new DeleteCommand(editor, history, count).execute()] *)
Definition DeleteCommand_execute (now : Z) (count : Z) : M World unit :=
  Plain.saveState now;;
  on_editor (Plain.delete count).

(** [new FormatCommand(editor, history, fontSize).execute()] *)
Definition FormatCommand_execute (now : Z) (fontSize : Z) : M World unit :=
  Plain.saveState now;;
  on_editor (Plain.setFontSize fontSize).

End Commands.

(* ===================================================================== *)
(** ** Sessions: sequences of method calls on one editor and one caretaker *)
(* ===================================================================== *)

Module PlainSession.

Inductive call : Type :=
| Write (text : string)
| Delete (count : Z)
| SetCursor (position : Z)
| SetFontSize (size : Z)
| SaveState (now : Z)
| Undo
| Redo
| ClearHistory.

(** The objects after the call; a caller that catches an exception goes
    on with the objects as the exception left them. *)
Definition perform (c : call) (w : World) : World :=
  match c with
  | Write text => state (on_editor (Plain.write text) w)
  | Delete count => state (on_editor (Plain.delete count) w)
  | SetCursor position => state (on_editor (Plain.setCursor position) w)
  | SetFontSize size => state (on_editor (Plain.setFontSize size) w)
  | SaveState now => state (Plain.saveState now w)
  | Undo => state (Plain.undo w)
  | Redo => state (Plain.redo w)
  | ClearHistory => state (on_history Plain.clearHistory w)
  end.

Definition run (cs : list call) (w : World) : World :=
  foldl (fun w c => perform c w) w cs.

Definition reachable (w : World) : Prop :=
  exists cs : list call, w = run cs new_World.

(** The calls that edit the document. *)
Definition is_edit (c : call) : bool :=
  match c with
  | Write _ | Delete _ | SetCursor _ | SetFontSize _ => true
  | _ => false
  end.

Definition is_undo (c : call) : bool :=
  match c with
  | Undo => true
  | _ => false
  end.

(** [saveState] called once for each clock reading and editor state of
    the list, whatever edits happen in between. *)
Definition saveStates (es : list (Z * TextEditor)) (h : HistoryManager)
  : HistoryManager :=
  foldl (fun h ne =>
           history (state (Plain.saveState (fst ne)
                             {| history := h; editor := snd ne |})))
        h es.

End PlainSession.

Module CheckedSession.
Import Js.

Inductive call : Type :=
| Write (text : string)
| Delete (count : number)
| SetCursor (position : number)
| SetFontSize (size : number)
| SaveState (now : Z)
| Undo
| Redo
| ClearHistory
| SetMaxHistorySize (size : number).

Definition perform (c : call) (w : World) : World :=
  match c with
  | Write text => state (on_editor (Checked.write text) w)
  | Delete count => state (on_editor (Checked.delete count) w)
  | SetCursor position => state (on_editor (Checked.setCursor position) w)
  | SetFontSize size => state (on_editor (Checked.setFontSize size) w)
  | SaveState now => state (Checked.saveState now w)
  | Undo => state (Checked.undo w)
  | Redo => state (Checked.redo w)
  | ClearHistory => state (on_history Checked.clearHistory w)
  | SetMaxHistorySize size => state (on_history (Checked.setMaxHistorySize size) w)
  end.

Definition run (cs : list call) (w : World) : World :=
  foldl (fun w c => perform c w) w cs.

Definition reachable (w : World) : Prop :=
  exists cs : list call, w = run cs new_World.

Definition is_undo (c : call) : bool :=
  match c with
  | Undo => true
  | _ => false
  end.

Definition saveStates (es : list (Z * TextEditor)) (h : HistoryManager)
  : HistoryManager :=
  foldl (fun h ne =>
           history (state (Checked.saveState (fst ne)
                             {| history := h; editor := snd ne |})))
        h es.

End CheckedSession.

(** The caretaker's bookkeeping invariant:
    [-1 <= currentIndex < snapshots.length <= maxHistorySize], with a
    capacity of at least one. *)
Definition ledger_ok (h : HistoryManager) : Prop :=
  -1 <= currentIndex h < Z.of_nat (length (snapshots h)) /\
  Z.of_nat (length (snapshots h)) <= maxHistorySize h /\
  1 <= maxHistorySize h.

(** The caretaker points at its newest snapshot: nothing to redo. *)
Definition at_tip (h : HistoryManager) : Prop :=
  currentIndex h = Z.of_nat (length (snapshots h)) - 1.

(** What the checked constructor accepts. *)
Definition snapshot_ok (s : EditorSnapshot) : Prop :=
  0 <= getCursorPosition s /\ 0 < getFontSize s.

Definition editor_ok (e : TextEditor) : Prop :=
  cursor_in_text e /\ 0 < fontSize e.

(** The snapshot [saveState] takes of an editor. *)
Definition snapshot_of (now : Z) (e : TextEditor) : EditorSnapshot :=
  Plain.new_EditorSnapshot now (content e) (cursorPosition e) (fontSize e).

(** The editor after [restore(s)]. *)
Definition restored (s : EditorSnapshot) : TextEditor :=
  {| content := getContent s; cursorPosition := getCursorPosition s;
     fontSize := getFontSize s |}.

(** What holds of the objects of a session of the checked classes: the
    editor and every stored snapshot satisfy the document invariant, and the
    caretaker its own. *)
Definition world_ok (w : World) : Prop :=
  editor_ok (editor w) /\
  ledger_ok (history w) /\
  Forall (fun s => editor_ok (restored s)) (snapshots (history w)).

(** The array [saveState] holds after its [push]. *)
Definition pushed (now : Z) (w : World) : list EditorSnapshot :=
  Js.push (snapshot_of now (editor w))
    (Js.slice0 (snapshots (history w)) (currentIndex (history w) + 1)).

(* ===================================================================== *)
(** ** [src/commands/editorCommands.ts]: checked commands and the invoker *)
(* ===================================================================== *)

Module CheckedCommands.
Import Js.

(** The three classes that implement [Command].  A command keeps the
    references to the editor and the caretaker it was built with; they are
    the objects of the [World] it runs on.  The [!editor || !history] guards
    of the constructors never fire on objects and are left out. *)
Inductive Command : Type :=
| WriteCommand (text : string)
| DeleteCommand (count : Z)
| FormatCommand (fontSize : Z).

(** [new WriteCommand(editor, history, text)] *)
Definition new_WriteCommand (text : string) : outcome Command :=
  if Checked.is_empty text then Thrown "Invalid text input"
  else Returned (WriteCommand text).

(** [new DeleteCommand(editor, history, count)] *)
Definition new_DeleteCommand (count : number) : outcome Command :=
  if lt0 count || negb (isInteger count) then Thrown "Invalid delete count"
  else
    match count with
    | Int count => Returned (DeleteCommand count)
    | _ => Thrown "Invalid delete count" (* not an integer: already thrown *)
    end.

(** [new FormatCommand(editor, history, fontSize)] *)
Definition new_FormatCommand (fontSize : number) : outcome Command :=
  if le0 fontSize || negb (isInteger fontSize) then Thrown "Invalid font size"
  else
    match fontSize with
    | Int fontSize => Returned (FormatCommand fontSize)
    | _ => Thrown "Invalid font size" (* not an integer: already thrown *)
    end.

(** [command.execute()] *)
Definition execute (now : Z) (command : Command) : M World unit :=
  match command with
  | WriteCommand text =>
      Checked.rethrowing (
        Checked.saveState now;;
        on_editor (Checked.write text))
  | DeleteCommand count =>
      Checked.rethrowing (
        Checked.saveState now;;
        on_editor (Checked.delete (Int count)))
  | FormatCommand fontSize =>
      Checked.rethrowing (
        Checked.saveState now;;
        on_editor (Checked.setFontSize (Int fontSize)))
  end.

(** [EditorInvoker]: its array of executed commands, beside the objects the
    commands act on. *)
Record Invoker : Type := {
  objects : World;
  commands : list Command
}.

Definition on_objects {A : Type} (m : M World A) : M Invoker A :=
  fun this =>
    let (r, w) := m (objects this) in
    (r, {| objects := w; commands := commands this |}).

Definition set_commands (v : list Command) (this : Invoker) : Invoker :=
  {| objects := objects this; commands := v |}.

(** [new EditorInvoker()] on given objects. *)
Definition new_EditorInvoker (w : World) : Invoker :=
  {| objects := w; commands := [] |}.

(** [invoker.executeCommand(command)]; the [!command] guard never fires on
    an object. *)
Definition executeCommand (now : Z) (command : Command) : M Invoker unit :=
  Checked.rethrowing (
    on_objects (execute now command);;
    modify (fun this => set_commands (push command (commands this)) this)).

Definition getExecutedCommands (this : Invoker) : Z :=
  Z.of_nat (length (commands this)).

Definition clearCommandHistory : M Invoker unit :=
  modify (set_commands []).

End CheckedCommands.

(** A command one of the three checked constructors returns. *)
Definition constructed (command : CheckedCommands.Command) : Prop :=
  match command with
  | CheckedCommands.WriteCommand text => text <> EmptyString
  | CheckedCommands.DeleteCommand count => 0 <= count
  | CheckedCommands.FormatCommand fontSize => 0 < fontSize
  end.

(** The editor after the edit of a command. *)
Definition edited (command : CheckedCommands.Command) (e : TextEditor)
  : TextEditor :=
  match command with
  | CheckedCommands.WriteCommand text => state (Checked.write text e)
  | CheckedCommands.DeleteCommand count => state (Checked.delete (Js.Int count) e)
  | CheckedCommands.FormatCommand fontSize =>
      state (Checked.setFontSize (Js.Int fontSize) e)
  end.

(** [invoker.executeCommand] on each command of a list in turn, with the
    clock reading of each; an exception ends the run. *)
Fixpoint executeCommands (cmds : list (Z * CheckedCommands.Command))
  : M CheckedCommands.Invoker unit :=
  match cmds with
  | [] => mret tt
  | (now, command) :: rest =>
      CheckedCommands.executeCommand now command;;
      executeCommands rest
  end.


(** The clock readings of the [saveState] calls of a session, in order. *)
Definition clock_readings (cs : list PlainSession.call) : list Z :=
  omap (fun c => match c with
                 | PlainSession.SaveState now => Some now
                 | _ => None
                 end) cs.

(** The snapshots are in the order of their timestamps. *)
Definition chronological (arr : list EditorSnapshot) : Prop :=
  forall (i j : nat) (a b : EditorSnapshot),
    (i <= j)%nat -> arr !! i = Some a -> arr !! j = Some b ->
    getTimestamp a <= getTimestamp b.

(* ===================================================================== *)
(** ** Strings and arrays *)
(* ===================================================================== *)

Section Strings.
Import Js.

Lemma length_append (s t : string) :
  String.length (s ++ t) = (String.length s + String.length t)%nat.
Proof. induction s as [|c s IH]; simpl; [reflexivity | now rewrite IH]. Qed.

Lemma append_assoc (s t u : string) : ((s ++ t) ++ u)%string = (s ++ t ++ u)%string.
Proof. induction s as [|c s IH]; simpl; [reflexivity | now rewrite IH]. Qed.

Lemma str_take_drop (n : nat) (s : string) :
  (str_take n s ++ str_drop n s)%string = s.
Proof.
  revert s; induction n as [|n IH]; intros [|c s]; simpl; try reflexivity.
  now rewrite IH.
Qed.

Lemma length_str_take (n : nat) (s : string) :
  String.length (str_take n s) = Nat.min n (String.length s).
Proof.
  revert s; induction n as [|n IH]; intros [|c s]; simpl; try reflexivity.
  now rewrite IH.
Qed.

Lemma length_str_drop (n : nat) (s : string) :
  String.length (str_drop n s) = (String.length s - n)%nat.
Proof.
  revert s; induction n as [|n IH]; intros [|c s]; simpl; try reflexivity.
  now rewrite IH.
Qed.

Lemma str_take_all (n : nat) (s : string) :
  (String.length s <= n)%nat -> str_take n s = s.
Proof.
  revert s; induction n as [|n IH]; intros [|c s]; simpl; intros H;
    try reflexivity; try lia.
  rewrite IH; [reflexivity | lia].
Qed.

Lemma str_drop_all (n : nat) (s : string) :
  (String.length s <= n)%nat -> str_drop n s = EmptyString.
Proof.
  revert s; induction n as [|n IH]; intros [|c s]; simpl; intros H;
    try reflexivity; try lia.
  apply IH; lia.
Qed.

Lemma str_take_0 (s : string) : str_take 0 s = EmptyString.
Proof. reflexivity. Qed.

Lemma str_drop_0 (s : string) : str_drop 0 s = s.
Proof. reflexivity. Qed.

(** Taking and dropping across a concatenation whose first part has
    exactly the length asked for. *)
Lemma str_take_app (s t : string) :
  str_take (String.length s) (s ++ t) = s.
Proof.
  induction s as [|c s IH]; simpl; [reflexivity | now rewrite IH].
Qed.

Lemma str_drop_app (s t : string) :
  str_drop (String.length s) (s ++ t) = t.
Proof.
  induction s as [|c s IH]; simpl; [reflexivity | exact IH].
Qed.

Lemma str_drop_drop (n m : nat) (s : string) :
  str_drop n (str_drop m s) = str_drop (m + n) s.
Proof.
  revert s; induction m as [|m IH]; intros s; simpl.
  - reflexivity.
  - destruct s as [|c s]; simpl; [now destruct n | apply IH].
Qed.

(** [substring] on indices that are in range and in order. *)
Lemma substring_in_range (s : string) (a b : Z) :
  0 <= a <= b -> b <= Z.of_nat (String.length s) ->
  substring s a b = str_take (Z.to_nat (b - a)) (str_drop (Z.to_nat a) s).
Proof.
  intros Hab Hb. unfold substring, clamp.
  replace (Z.to_nat (Z.min (Z.max a 0) (Z.of_nat (String.length s))))
    with (Z.to_nat a) by lia.
  replace (Z.to_nat (Z.min (Z.max b 0) (Z.of_nat (String.length s))))
    with (Z.to_nat b) by lia.
  replace (Nat.min (Z.to_nat a) (Z.to_nat b)) with (Z.to_nat a) by lia.
  replace (Nat.max (Z.to_nat a) (Z.to_nat b)) with (Z.to_nat b) by lia.
  f_equal. lia.
Qed.

Lemma substring_prefix (s : string) (b : Z) :
  0 <= b <= Z.of_nat (String.length s) ->
  substring s 0 b = str_take (Z.to_nat b) s.
Proof.
  intros Hb. rewrite substring_in_range by lia.
  simpl. f_equal. lia.
Qed.

Lemma substring_suffix (s : string) (a : Z) :
  0 <= a <= Z.of_nat (String.length s) ->
  substring_from s a = str_drop (Z.to_nat a) s.
Proof.
  intros Ha. unfold substring_from. rewrite substring_in_range by lia.
  apply str_take_all. rewrite length_str_drop. lia.
Qed.

Lemma length_slice0 {A : Type} (arr : list A) (e : Z) :
  0 <= e <= Z.of_nat (length arr) ->
  Z.of_nat (length (slice0 arr e)) = e.
Proof.
  intros He. unfold slice0.
  destruct (Z.ltb_spec e 0); [lia|].
  rewrite length_take. lia.
Qed.

Lemma slice0_take {A : Type} (arr : list A) (e : Z) :
  0 <= e -> slice0 arr e = take (Z.to_nat e) arr.
Proof.
  intros He. unfold slice0.
  destruct (Z.ltb_spec e 0); [lia|].
  destruct (Z.le_gt_cases e (Z.of_nat (length arr))).
  - f_equal. lia.
  - rewrite !take_ge by lia. reflexivity.
Qed.

End Strings.

(* ===================================================================== *)
(** ** The methods as equations *)
(* ===================================================================== *)

(** Unfolds the monad so that a method applied to a state computes. *)
Ltac run_method :=
  cbv [mbind mret M_bind M_ret gets modify throw throw_if try_catch
       on_history on_editor result state Checked.rethrowing
       Checked.check_in_history];
  cbn [history editor snapshots currentIndex maxHistorySize
       content cursorPosition fontSize fst snd
       set_content set_cursorPosition set_fontSize
       set_snapshots set_currentIndex set_maxHistorySize].

(** Decides the comparisons of an argument check once the kind of number
    is known. *)
Ltac decide_guard :=
  cbn [Js.lt0 Js.le0 Js.isInteger negb];
  repeat match goal with
    | |- context [?a <? ?b] => destruct (Z.ltb_spec a b)
    | |- context [?a <=? ?b] => destruct (Z.leb_spec a b)
    | |- context [orb ?b _] => is_var b; destruct b
    end;
  cbn [orb].

Section PlainEquations.
Import Js.

Lemma write_eq (text : string) (e : TextEditor) :
  Plain.write text e =
  (Returned tt,
   {| content := (substring (content e) 0 (cursorPosition e) ++ text ++
                  substring_from (content e) (cursorPosition e))%string;
      cursorPosition := cursorPosition e + Z.of_nat (String.length text);
      fontSize := fontSize e |}).
Proof. reflexivity. Qed.

Lemma delete_eq (count : Z) (e : TextEditor) :
  Plain.delete count e =
  (Returned tt,
   if cursorPosition e >=? count then
     {| content := (substring (content e) 0 (cursorPosition e - count) ++
                    substring_from (content e) (cursorPosition e))%string;
        cursorPosition := cursorPosition e - count;
        fontSize := fontSize e |}
   else e).
Proof.
  unfold Plain.delete. run_method. unfold id.
  destruct (cursorPosition e >=? count); reflexivity.
Qed.

Lemma restore_eq (s : EditorSnapshot) (e : TextEditor) :
  Plain.restore (Some s) e = (Returned tt, restored s).
Proof. reflexivity. Qed.

Lemma createSnapshot_eq (now : Z) (e : TextEditor) :
  Plain.createSnapshot now e = (Returned (snapshot_of now e), e).
Proof. reflexivity. Qed.

Lemma saveState_eq (now : Z) (w : World) :
  Plain.saveState now w =
  (Returned tt,
   {| history :=
        if Z.of_nat (length (pushed now w)) >? maxHistorySize (history w) then
          {| snapshots := shift (pushed now w);
             currentIndex := currentIndex (history w);
             maxHistorySize := maxHistorySize (history w) |}
        else
          {| snapshots := pushed now w;
             currentIndex := currentIndex (history w) + 1;
             maxHistorySize := maxHistorySize (history w) |};
      editor := editor w |}).
Proof.
  unfold Plain.saveState, Plain.createSnapshot, pushed, snapshot_of.
  run_method.
  destruct (_ >? _); reflexivity.
Qed.

Lemma undo_eq (w : World) :
  Plain.undo w =
  if currentIndex (history w) >? 0 then
    match index (snapshots (history w)) (currentIndex (history w) - 1) with
    | Some s =>
        (Returned true,
         {| history := set_currentIndex (currentIndex (history w) - 1) (history w);
            editor := restored s |})
    | None =>
        (Thrown "TypeError",
         {| history := set_currentIndex (currentIndex (history w) - 1) (history w);
            editor := editor w |})
    end
  else (Returned false, w).
Proof.
  unfold Plain.undo. run_method.
  destruct (_ >? _); [|reflexivity].
  destruct (index _ _); reflexivity.
Qed.

Lemma redo_eq (w : World) :
  Plain.redo w =
  if currentIndex (history w) <? Z.of_nat (length (snapshots (history w))) - 1 then
    match index (snapshots (history w)) (currentIndex (history w) + 1) with
    | Some s =>
        (Returned true,
         {| history := set_currentIndex (currentIndex (history w) + 1) (history w);
            editor := restored s |})
    | None =>
        (Thrown "TypeError",
         {| history := set_currentIndex (currentIndex (history w) + 1) (history w);
            editor := editor w |})
    end
  else (Returned false, w).
Proof.
  unfold Plain.redo. run_method.
  destruct (_ <? _); [|reflexivity].
  destruct (index _ _); reflexivity.
Qed.

Lemma index_in_range {A : Type} (arr : list A) (i : Z) :
  0 <= i < Z.of_nat (length arr) -> exists x, index arr i = Some x.
Proof.
  intros Hi. unfold index. destruct (Z.ltb_spec i 0); [lia|].
  apply lookup_lt_is_Some_2. lia.
Qed.

Lemma index_last {A : Type} (arr : list A) (x : A) (i : Z) :
  Z.of_nat (length arr) = i -> index (push x arr) i = Some x.
Proof.
  intros Hi. unfold index, push. destruct (Z.ltb_spec i 0); [lia|].
  rewrite lookup_app_r by lia.
  replace (Z.to_nat i - length arr)%nat with 0%nat by lia. reflexivity.
Qed.

Lemma index_shift_last {A : Type} (arr : list A) (x : A) (i : Z) :
  Z.of_nat (length arr) = i + 1 -> 0 <= i ->
  index (shift (push x arr)) i = Some x.
Proof.
  intros Hi Hnn. unfold index, shift, push. destruct (Z.ltb_spec i 0); [lia|].
  rewrite lookup_drop, lookup_app_r by lia.
  replace (1 + Z.to_nat i - length arr)%nat with 0%nat by lia. reflexivity.
Qed.

Lemma length_pushed (now : Z) (w : World) :
  -1 <= currentIndex (history w) < Z.of_nat (length (snapshots (history w))) ->
  Z.of_nat (length (pushed now w)) = currentIndex (history w) + 2.
Proof.
  intros H. unfold pushed, push. rewrite length_app. simpl.
  pose proof (length_slice0 (snapshots (history w)) (currentIndex (history w) + 1)).
  lia.
Qed.

End PlainEquations.

(* ===================================================================== *)
(** ** The caretaker's invariant *)
(* ===================================================================== *)

Section Ledger.
Import Js PlainSession.

Lemma new_ledger_ok : ledger_ok new_HistoryManager.
Proof. unfold ledger_ok; simpl; lia. Qed.

(** One [saveState]: the invariant is kept, the caretaker ends at its
    newest snapshot, and the array holds [min (currentIndex + 2)
    maxHistorySize] snapshots. *)
Lemma saveState_ledger (now : Z) (w : World) :
  ledger_ok (history w) ->
  let h' := history (state (Plain.saveState now w)) in
  ledger_ok h' /\ at_tip h' /\
  maxHistorySize h' = maxHistorySize (history w) /\
  Z.of_nat (length (snapshots h')) =
    Z.min (currentIndex (history w) + 2) (maxHistorySize (history w)).
Proof.
  intros [Hidx Hmax]. rewrite saveState_eq. unfold state; cbn [snd history].
  pose proof (length_pushed now w Hidx) as Hlen.
  destruct (Z.gtb_spec (Z.of_nat (length (pushed now w)))
              (maxHistorySize (history w))) as [Hgt|Hle];
    unfold ledger_ok, at_tip; cbn [snapshots currentIndex maxHistorySize].
  - unfold shift. rewrite length_drop. lia.
  - lia.
Qed.

Lemma saveState_editor (now : Z) (w : World) :
  editor (state (Plain.saveState now w)) = editor w.
Proof. rewrite saveState_eq. reflexivity. Qed.

Lemma undo_ledger (w : World) :
  ledger_ok (history w) -> ledger_ok (history (state (Plain.undo w))).
Proof.
  intros [Hidx Hmax]. rewrite undo_eq.
  destruct (Z.gtb_spec (currentIndex (history w)) 0) as [Hgt|Hle];
    [|split; assumption].
  destruct (index _ _); unfold ledger_ok, state;
    cbn [snd history set_currentIndex snapshots currentIndex maxHistorySize];
    lia.
Qed.

Lemma redo_ledger (w : World) :
  ledger_ok (history w) -> ledger_ok (history (state (Plain.redo w))).
Proof.
  intros [Hidx Hmax]. rewrite redo_eq.
  destruct (Z.ltb_spec (currentIndex (history w))
              (Z.of_nat (length (snapshots (history w))) - 1)) as [Hlt|Hge];
    [|split; assumption].
  destruct (index _ _); unfold ledger_ok, state;
    cbn [snd history set_currentIndex snapshots currentIndex maxHistorySize];
    lia.
Qed.

(** At its newest snapshot the caretaker refuses to redo and changes
    nothing. *)
Lemma redo_at_tip (w : World) :
  at_tip (history w) ->
  Plain.canRedo (history w) = false /\ Plain.redo w = (Returned false, w).
Proof.
  unfold at_tip. intros Htip. rewrite redo_eq. unfold Plain.canRedo.
  destruct (Z.ltb_spec (currentIndex (history w))
              (Z.of_nat (length (snapshots (history w))) - 1)); [lia|].
  split; reflexivity.
Qed.

Lemma edit_history (c : call) (w : World) :
  is_edit c = true -> history (perform c w) = history w.
Proof.
  destruct c; simpl; try discriminate; intros _; try reflexivity.
  unfold on_editor. rewrite delete_eq. reflexivity.
Qed.

Lemma perform_ledger (c : call) (w : World) :
  ledger_ok (history w) -> ledger_ok (history (perform c w)).
Proof.
  intros Hok.
  destruct c;
    try (rewrite edit_history by reflexivity; exact Hok); cbn [perform].
  - apply saveState_ledger, Hok.
  - apply undo_ledger, Hok.
  - apply redo_ledger, Hok.
  - destruct Hok as [Hidx Hmax]. unfold ledger_ok; simpl. lia.
Qed.

Lemma run_snoc (cs : list call) (c : call) (w : World) :
  run (cs ++ [c]) w = perform c (run cs w).
Proof. unfold run. rewrite foldl_app. reflexivity. Qed.

Lemma run_ledger (cs : list call) (w : World) :
  ledger_ok (history w) -> ledger_ok (history (run cs w)).
Proof.
  intros Hok. induction cs as [|c cs IH] using rev_ind; [exact Hok|].
  rewrite run_snoc. apply perform_ledger, IH.
Qed.

(** Every caretaker reached by method calls from a fresh editor and a
    fresh caretaker satisfies the invariant. *)
Lemma reachable_ledger_ok (w : World) :
  reachable w -> ledger_ok (history w).
Proof.
  intros [cs ->]. apply run_ledger, new_ledger_ok.
Qed.

(** Being at the newest snapshot survives every call but [undo]. *)
Lemma perform_at_tip (c : call) (w : World) :
  is_undo c = false ->
  ledger_ok (history w) -> at_tip (history w) ->
  at_tip (history (perform c w)).
Proof.
  intros Hc Hok Htip.
  destruct c; try discriminate;
    try (rewrite edit_history by reflexivity; exact Htip).
  - apply saveState_ledger, Hok.
  - cbn [perform]. rewrite (proj2 (redo_at_tip w Htip)). exact Htip.
  - reflexivity.
Qed.

Lemma run_at_tip (cs : list call) (w : World) :
  forallb (fun c => negb (is_undo c)) cs = true ->
  ledger_ok (history w) -> at_tip (history w) ->
  at_tip (history (run cs w)).
Proof.
  intros Hcs Hok Htip.
  induction cs as [|c cs IH] using rev_ind; [exact Htip|].
  rewrite forallb_app in Hcs. apply andb_true_iff in Hcs as [Hcs Hc].
  simpl in Hc. rewrite andb_true_r in Hc. apply negb_true_iff in Hc.
  rewrite run_snoc. apply perform_at_tip; auto using run_ledger.
Qed.

End Ledger.

(* ===================================================================== *)
(** ** The checked classes on arguments that pass their checks *)
(* ===================================================================== *)

Section CheckedEquations.
Import Js.

Lemma checked_createSnapshot_eq (now : Z) (e : TextEditor) :
  0 <= cursorPosition e -> 0 < fontSize e ->
  Checked.createSnapshot now e = (Returned (snapshot_of now e), e).
Proof.
  intros Hc Hf.
  unfold Checked.createSnapshot, Checked.new_EditorSnapshot. run_method.
  cbn [lt0 le0 isInteger negb].
  rewrite (proj2 (Z.ltb_ge _ _)) by lia.
  rewrite (proj2 (Z.leb_gt _ _)) by lia.
  reflexivity.
Qed.

Lemma isValid_snapshot_of (now : Z) (e : TextEditor) :
  0 <= cursorPosition e -> 0 < fontSize e ->
  Checked.isValid (snapshot_of now e) = true.
Proof.
  intros Hc Hf. unfold Checked.isValid, snapshot_of; simpl.
  apply andb_true_iff; split; [apply Z.geb_le | apply Z.gtb_lt]; lia.
Qed.

(** On an editor whose snapshot the constructor accepts, the checked
    [saveState] does what the unchecked one does. *)
Lemma checked_saveState_eq (now : Z) (w : World) :
  0 <= cursorPosition (editor w) -> 0 < fontSize (editor w) ->
  Checked.saveState now w = Plain.saveState now w.
Proof.
  intros Hc Hf. rewrite saveState_eq.
  unfold Checked.saveState. run_method.
  rewrite checked_createSnapshot_eq by assumption.
  rewrite isValid_snapshot_of by assumption.
  cbn [negb]. fold (pushed now w).
  destruct (_ >? _); reflexivity.
Qed.

Lemma checked_write_eq (text : string) (e : TextEditor) :
  text <> EmptyString ->
  Checked.write text e = Plain.write text e.
Proof.
  intros Htext. destruct text as [|c text]; [congruence|]. reflexivity.
Qed.

Lemma checked_delete_eq (count : Z) (e : TextEditor) :
  0 <= count ->
  Checked.delete (Int count) e = Plain.delete count e.
Proof.
  intros Hcount. rewrite delete_eq. unfold Checked.delete. run_method.
  cbn [lt0 isInteger negb]. rewrite (proj2 (Z.ltb_ge _ _)) by lia.
  unfold id; cbn [orb].
  destruct (cursorPosition e >=? count); reflexivity.
Qed.

Lemma checked_restore_eq (s : EditorSnapshot) (e : TextEditor) :
  Checked.restore (Some s) e = (Returned tt, restored s).
Proof. reflexivity. Qed.

End CheckedEquations.

Section Capacity.
Import Js PlainSession.

Lemma saveStates_snoc (es : list (Z * TextEditor)) (ne : Z * TextEditor)
    (h : HistoryManager) :
  saveStates (es ++ [ne]) h =
  history (state (Plain.saveState (fst ne)
                    {| history := saveStates es h; editor := snd ne |})).
Proof. unfold saveStates. rewrite foldl_app. reflexivity. Qed.

(** After [n >= 1] calls of [saveState] the array holds
    [min (currentIndex + 1 + n) maxHistorySize] snapshots, counting from
    the index the first call found. *)
Lemma saveStates_ledger (es : list (Z * TextEditor)) (h : HistoryManager) :
  ledger_ok h ->
  ledger_ok (saveStates es h) /\
  maxHistorySize (saveStates es h) = maxHistorySize h /\
  ((1 <= length es)%nat ->
   at_tip (saveStates es h) /\
   Z.of_nat (length (snapshots (saveStates es h))) =
     Z.min (currentIndex h + 1 + Z.of_nat (length es)) (maxHistorySize h)).
Proof.
  intros Hok. induction es as [|ne es IH] using rev_ind.
  - split; [exact Hok|]. split; [reflexivity|]. simpl; lia.
  - destruct IH as (Hok1 & Hmax1 & Hlen1).
    rewrite saveStates_snoc.
    pose proof (saveState_ledger (fst ne)
                  {| history := saveStates es h; editor := snd ne |} Hok1)
      as (Hok' & Htip' & Hmax' & Hlen').
    cbn [history] in Hmax', Hlen'.
    split; [exact Hok'|]. split; [congruence|].
    intros _. split; [exact Htip'|].
    rewrite Hlen', Hmax1, length_app. simpl.
    destruct es as [|ne0 es0].
    + simpl. lia.
    + destruct Hlen1 as [Htip1 Hl1]; [simpl; lia|].
      unfold at_tip in Htip1. rewrite Htip1, Hl1. lia.
Qed.

Lemma checked_saveStates_eq (es : list (Z * TextEditor)) (h : HistoryManager) :
  Forall (fun ne => 0 <= cursorPosition (snd ne) /\ 0 < fontSize (snd ne)) es ->
  CheckedSession.saveStates es h = saveStates es h.
Proof.
  intros Hes. revert h. induction Hes as [|ne es [Hc Hf] Hes IH]; intros h.
  - reflexivity.
  - simpl. rewrite checked_saveState_eq by assumption. apply IH.
Qed.

End Capacity.

(* ===================================================================== *)
(** ** Saving after undo, and the capacity of the history *)
(* ===================================================================== *)

Section HistoryClaims.
Import Js PlainSession.

(** C4. In every reachable state, [saveState] keeps of the stored
    snapshots only those at positions [0 .. currentIndex], appends the new
    one (and may then evict the oldest); from then on, through any calls
    other than [undo], [canRedo()] is false and [redo] returns false and
    changes nothing. *)
Theorem saveState_discards_redo_branch (w : World) (now : Z) (cs : list call) :
  reachable w ->
  forallb (fun c => negb (is_undo c)) cs = true ->
  (exists evicted : nat,
      (evicted <= 1)%nat /\
      snapshots (history (state (Plain.saveState now w))) =
        drop evicted
          (take (Z.to_nat (currentIndex (history w) + 1)) (snapshots (history w))
             ++ [snapshot_of now (editor w)])) /\
  Plain.canRedo (history (state (Plain.saveState now w))) = false /\
  Plain.redo (state (Plain.saveState now w)) =
    (Returned false, state (Plain.saveState now w)) /\
  Plain.canRedo (history (run cs (state (Plain.saveState now w)))) = false /\
  Plain.redo (run cs (state (Plain.saveState now w))) =
    (Returned false, run cs (state (Plain.saveState now w))).
Proof.
  intros Hreach Hcs.
  pose proof (reachable_ledger_ok w Hreach) as Hok.
  pose proof (saveState_ledger now w Hok) as (Hok' & Htip' & _ & _).
  cbv zeta in Hok', Htip'.
  split; [|split; [|split]].
  - rewrite saveState_eq. unfold state; cbn [snd history].
    unfold pushed, push, shift.
    rewrite slice0_take by (destruct Hok; lia).
    destruct (_ >? _); cbn [snapshots]; [exists 1%nat | exists 0%nat];
      (split; [lia | reflexivity]).
  - apply redo_at_tip, Htip'.
  - apply redo_at_tip, Htip'.
  - apply redo_at_tip, run_at_tip; assumption.
Qed.

Lemma saveState_discards_redo_branch_witness :
  let w := run [SaveState 1; Write "a"; SaveState 2; Write "b"; Undo] new_World in
  currentIndex (history w) = 0 /\
  length (snapshots (history w)) = 2%nat /\
  length (snapshots (history (state (Plain.saveState 3 w)))) = 2%nat /\
  Plain.redo (run [Write "c"; Redo] (state (Plain.saveState 3 w))) =
    (Returned false, run [Write "c"; Redo] (state (Plain.saveState 3 w))).
Proof.
  split; [reflexivity|]. split; [reflexivity|]. split; [reflexivity|].
  apply (saveState_discards_redo_branch
           (run [SaveState 1; Write "a"; SaveState 2; Write "b"; Undo] new_World)
           3 [Write "c"; Redo]).
  - exists [SaveState 1; Write "a"; SaveState 2; Write "b"; Undo]. reflexivity.
  - reflexivity.
Defined.

(** C5. With capacity [N], after [N + k] calls of [saveState] ([k > 0],
    no [undo] in between, whatever the editor holds at each call) the
    caretaker stores exactly [N] snapshots and [currentIndex] is at most
    [N - 1]; the checked caretaker does the same.  In each call, when the
    array would exceed the capacity its oldest element is removed and
    [currentIndex] stays, and otherwise [currentIndex] is incremented. *)
Theorem saveState_capacity (N : Z) (k : nat) (es : list (Z * TextEditor))
    (h : HistoryManager) :
  ledger_ok h ->
  maxHistorySize h = N ->
  (0 < k)%nat ->
  length es = (Z.to_nat N + k)%nat ->
  (Z.of_nat (length (snapshots (saveStates es h))) = N /\
   currentIndex (saveStates es h) <= N - 1) /\
  (Forall (fun ne => 0 <= cursorPosition (snd ne) /\ 0 < fontSize (snd ne)) es ->
   Z.of_nat (length (snapshots (CheckedSession.saveStates es h))) = N /\
   currentIndex (CheckedSession.saveStates es h) <= N - 1) /\
  (forall (now : Z) (w : World),
      let h' := history (state (Plain.saveState now w)) in
      if Z.of_nat (length (pushed now w)) >? maxHistorySize (history w) then
        snapshots h' = drop 1 (pushed now w) /\
        currentIndex h' = currentIndex (history w)
      else
        snapshots h' = pushed now w /\
        currentIndex h' = currentIndex (history w) + 1).
Proof.
  intros Hok HN Hk Hlen.
  assert (Hplain : Z.of_nat (length (snapshots (saveStates es h))) = N /\
                   currentIndex (saveStates es h) <= N - 1).
  { destruct (saveStates_ledger es h Hok) as (_ & _ & Hn).
    destruct Hn as [Htip Hl]; [lia|].
    unfold at_tip in Htip. destruct Hok as [Hidx Hmax].
    rewrite Hl, HN, Hlen in *. lia. }
  split; [exact Hplain|]. split.
  - intros Hes. rewrite checked_saveStates_eq by exact Hes. exact Hplain.
  - intros now w. cbv zeta. rewrite saveState_eq.
    unfold state; cbn [snd history].
    destruct (_ >? _); split; reflexivity.
Qed.

Lemma saveState_capacity_witness :
  Z.of_nat (length (snapshots
    (saveStates (repeat (0, new_TextEditor) 53) new_HistoryManager))) = 50 /\
  currentIndex
    (saveStates (repeat (0, new_TextEditor) 53) new_HistoryManager) <= 50 - 1.
Proof.
  refine (proj1 (saveState_capacity 50 3 (repeat (0, new_TextEditor) 53)
                   new_HistoryManager _ _ _ _)).
  - unfold ledger_ok; simpl; lia.
  - reflexivity.
  - lia.
  - reflexivity.
Defined.

End HistoryClaims.

(* ===================================================================== *)
(** ** The editor's methods *)
(* ===================================================================== *)

Section EditorClaims.
Import Js.

Lemma write_delete_plain (e : TextEditor) (text : string) :
  cursor_in_text e ->
  state (Plain.delete (Z.of_nat (String.length text))
           (state (Plain.write text e))) = e.
Proof.
  destruct e as [s c f]. unfold cursor_in_text; cbn [content cursorPosition].
  intros Hc. rewrite write_eq. unfold state at 2; cbn [snd].
  rewrite delete_eq. unfold state; cbn [snd content cursorPosition fontSize].
  destruct (Z.geb_spec (c + Z.of_nat (String.length text))
              (Z.of_nat (String.length text))) as [_|Hlt]; [|lia].
  rewrite (substring_prefix s c), (substring_suffix s c) by lia.
  set (pre := str_take (Z.to_nat c) s).
  set (post := str_drop (Z.to_nat c) s).
  assert (Hpre : String.length pre = Z.to_nat c).
  { unfold pre. rewrite length_str_take. lia. }
  replace (c + Z.of_nat (String.length text) - Z.of_nat (String.length text))
    with c by lia.
  rewrite substring_prefix
    by (rewrite !length_append; lia).
  rewrite substring_suffix
    by (rewrite !length_append; lia).
  rewrite <- Hpre at 1. rewrite str_take_app.
  replace (Z.to_nat (c + Z.of_nat (String.length text)))
    with (String.length (pre ++ text)) by (rewrite length_append; lia).
  rewrite <- append_assoc, str_drop_app.
  unfold pre, post. rewrite str_take_drop. reflexivity.
Qed.

Lemma write_delete_checked (e : TextEditor) (text : string) :
  cursor_in_text e ->
  text <> EmptyString ->
  exists e1 : TextEditor,
    Checked.write text e = (Returned tt, e1) /\
    Checked.delete (Int (Z.of_nat (String.length text))) e1 = (Returned tt, e).
Proof.
  intros Hc Htext. pose proof (write_delete_plain e text Hc) as Hplain.
  exists (state (Plain.write text e)). split.
  - rewrite checked_write_eq by exact Htext. reflexivity.
  - rewrite checked_delete_eq by lia.
    rewrite delete_eq in Hplain |- *. f_equal. exact Hplain.
Qed.

(** C6. On a document whose cursor lies within its text, [write(t)] with
    a non-empty [t] followed by [delete(t.length)] gives back the content
    and the cursor (and the font size) the document had, in the unchecked
    and in the checked editor; [write] and [delete] never change the font
    size. *)
Theorem write_then_delete_restores (e : TextEditor) (text : string) :
  cursor_in_text e ->
  text <> EmptyString ->
  state (Plain.delete (Z.of_nat (String.length text))
           (state (Plain.write text e))) = e /\
  (exists e1 : TextEditor,
      Checked.write text e = (Returned tt, e1) /\
      Checked.delete (Int (Z.of_nat (String.length text))) e1 = (Returned tt, e)) /\
  (forall (e' : TextEditor) (t : string),
      fontSize (state (Plain.write t e')) = fontSize e' /\
      fontSize (state (Checked.write t e')) = fontSize e') /\
  (forall (e' : TextEditor) (n : Z),
      fontSize (state (Plain.delete n e')) = fontSize e') /\
  (forall (e' : TextEditor) (x : number),
      fontSize (state (Checked.delete x e')) = fontSize e').
Proof.
  intros Hc Htext.
  split; [exact (write_delete_plain e text Hc)|].
  split; [exact (write_delete_checked e text Hc Htext)|].
  split; [|split].
  - intros e' t. split; [reflexivity|]. destruct t; reflexivity.
  - intros e' n. rewrite delete_eq. unfold state; cbn [snd].
    destruct (_ >=? _); reflexivity.
  - intros e' x. unfold Checked.delete. run_method.
    destruct x; decide_guard; try reflexivity.
    unfold id. destruct (_ >=? _); reflexivity.
Qed.

Lemma write_then_delete_restores_witness :
  let e := {| content := "Hello"; cursorPosition := 2; fontSize := 14 |} in
  state (Plain.delete 3 (state (Plain.write "abc" e))) = e.
Proof.
  refine (proj1 (write_then_delete_restores
                   {| content := "Hello"; cursorPosition := 2; fontSize := 14 |}
                   "abc" _ _)).
  - unfold cursor_in_text; simpl; lia.
  - discriminate.
Defined.

Lemma str_split3 (s : string) (a n : nat) :
  (a + n <= String.length s)%nat ->
  s = (str_take a s ++ str_take n (str_drop a s) ++ str_drop (a + n) s)%string /\
  String.length (str_take a s) = a /\
  String.length (str_take n (str_drop a s)) = n.
Proof.
  intros Hlen. split; [|split].
  - rewrite <- str_drop_drop, str_take_drop, str_take_drop. reflexivity.
  - rewrite length_str_take. lia.
  - rewrite length_str_take, length_str_drop. lia.
Qed.

(** C7. The checked [delete(count)] throws its validation error exactly
    when [count] is negative or not an integer.  For an integer
    [count >= 0]: when the cursor is below [count] nothing changes and
    nothing is thrown; otherwise, on a document whose cursor lies within
    its text, exactly the [count] characters before the cursor are removed
    and the cursor moves back by [count]. *)
Theorem delete_gated (e : TextEditor) (count : number) :
  (result (Checked.delete count e) = Thrown "Invalid delete count" <->
   negative_or_non_integer count) /\
  (forall n : Z,
      count = Int n -> 0 <= n ->
      (cursorPosition e < n -> Checked.delete count e = (Returned tt, e)) /\
      (n <= cursorPosition e -> cursor_in_text e ->
       exists pre del post : string,
         content e = (pre ++ del ++ post)%string /\
         Z.of_nat (String.length pre) = cursorPosition e - n /\
         Z.of_nat (String.length del) = n /\
         Checked.delete count e =
           (Returned tt,
            {| content := (pre ++ post)%string;
               cursorPosition := cursorPosition e - n;
               fontSize := fontSize e |}))).
Proof.
  split.
  - unfold Checked.delete. run_method.
    destruct count; decide_guard; cbn [negative_or_non_integer];
      try (split; [intros _; first [lia | exact I] | reflexivity]).
    unfold id. destruct (_ >=? _); cbn [fst];
      (split; [discriminate | lia]).
  - intros n -> Hn. rewrite checked_delete_eq by exact Hn.
    rewrite delete_eq. split.
    + intros Hlt. destruct (Z.geb_spec (cursorPosition e) n); [lia|reflexivity].
    + intros Hle [_ Hc].
      destruct (Z.geb_spec (cursorPosition e) n); [|lia].
      destruct (str_split3 (content e) (Z.to_nat (cursorPosition e - n))
                  (Z.to_nat n)) as (Hs & Hpre & Hdel); [lia|].
      eexists _, _, _. split; [exact Hs|].
      split; [lia|]. split; [lia|].
      rewrite substring_prefix, substring_suffix by lia.
      repeat f_equal. lia.
Qed.

Lemma delete_gated_witness :
  Checked.delete (Int 3) {| content := "Hello"; cursorPosition := 1; fontSize := 12 |} =
    (Returned tt, {| content := "Hello"; cursorPosition := 1; fontSize := 12 |}) /\
  exists pre del post : string,
    "Hello"%string = (pre ++ del ++ post)%string /\
    Z.of_nat (String.length pre) = 4 - 3 /\
    Z.of_nat (String.length del) = 3 /\
    Checked.delete (Int 3) {| content := "Hello"; cursorPosition := 4; fontSize := 12 |} =
      (Returned tt, {| content := (pre ++ post)%string; cursorPosition := 4 - 3;
                       fontSize := 12 |}).
Proof.
  split.
  - refine (proj1 (proj2 (delete_gated
              {| content := "Hello"; cursorPosition := 1; fontSize := 12 |}
              (Int 3)) 3 _ _) _); [reflexivity | lia | simpl; lia].
  - refine (proj2 (proj2 (delete_gated
              {| content := "Hello"; cursorPosition := 4; fontSize := 12 |}
              (Int 3)) 3 _ _) _ _);
      [reflexivity | lia | simpl; lia | unfold cursor_in_text; simpl; lia].
Defined.

(** C8. The checked [setCursor(position)] throws its validation error
    exactly when [position] is negative or not an integer; for an integer
    [position >= 0] it returns with the cursor at
    [min position content.length], the other fields unchanged. *)
Theorem setCursor_clamps (e : TextEditor) (position : number) :
  (result (Checked.setCursor position e) = Thrown "Invalid cursor position" <->
   negative_or_non_integer position) /\
  (forall p : Z,
      position = Int p -> 0 <= p ->
      Checked.setCursor position e =
        (Returned tt,
         {| content := content e;
            cursorPosition := Z.min p (Z.of_nat (String.length (content e)));
            fontSize := fontSize e |})).
Proof.
  split.
  - unfold Checked.setCursor. run_method.
    destruct position; decide_guard; cbn [negative_or_non_integer];
      try (split; [intros _; first [lia | exact I] | reflexivity]).
    cbn [fst]. split; [discriminate | lia].
  - intros p -> Hp. unfold Checked.setCursor. run_method.
    cbn [lt0 isInteger negb]. rewrite (proj2 (Z.ltb_ge _ _)) by lia.
    cbn [orb]. cbv beta iota. unfold set_cursorPosition.
    do 2 f_equal. lia.
Qed.

Lemma setCursor_clamps_witness :
  Checked.setCursor (Int 1000)
    {| content := "Hello"; cursorPosition := 0; fontSize := 12 |} =
  (Returned tt, {| content := "Hello"; cursorPosition := Z.min 1000 5; fontSize := 12 |}).
Proof.
  refine (proj2 (setCursor_clamps
            {| content := "Hello"; cursorPosition := 0; fontSize := 12 |}
            (Int 1000)) 1000 _ _); [reflexivity | lia].
Defined.

(** The checked [write(text)] throws exactly on the empty string, and
    otherwise inserts [text] at the cursor as the unchecked one does. *)
Lemma write_rejects_empty (e : TextEditor) (text : string) :
  (result (Checked.write text e) = Thrown "Invalid text input" <->
   text = EmptyString) /\
  (text <> EmptyString -> Checked.write text e = Plain.write text e).
Proof.
  split; [|apply checked_write_eq].
  destruct text as [|c text]; split; try reflexivity; discriminate.
Qed.

(** The checked [setFontSize(size)] throws exactly when [size] is at most
    zero or not an integer, and otherwise sets the font size alone. *)
Lemma setFontSize_rejects (e : TextEditor) (size : number) :
  (result (Checked.setFontSize size e) = Thrown "Invalid font size" <->
   non_positive_or_non_integer size) /\
  (forall n : Z,
      size = Int n -> 0 < n ->
      Checked.setFontSize size e = (Returned tt, set_fontSize n e)).
Proof.
  split.
  - unfold Checked.setFontSize. run_method.
    destruct size; decide_guard; cbn [non_positive_or_non_integer];
      try (split; [intros _; first [lia | exact I] | reflexivity]).
    cbn [fst]. split; [discriminate | lia].
  - intros n -> Hn. unfold Checked.setFontSize. run_method.
    decide_guard; [lia | reflexivity].
Qed.

(** C9. When the checked [write], [delete], [setCursor] or [setFontSize]
    throws, the editor's content, cursor and font size are what they were
    before the call. *)
Theorem rejected_call_changes_nothing (e : TextEditor) (error : string) :
  (forall text : string,
      result (Checked.write text e) = Thrown error ->
      state (Checked.write text e) = e) /\
  (forall count : number,
      result (Checked.delete count e) = Thrown error ->
      state (Checked.delete count e) = e) /\
  (forall position : number,
      result (Checked.setCursor position e) = Thrown error ->
      state (Checked.setCursor position e) = e) /\
  (forall size : number,
      result (Checked.setFontSize size e) = Thrown error ->
      state (Checked.setFontSize size e) = e).
Proof.
  split; [|split; [|split]].
  - intros [|c text]; [reflexivity | discriminate].
  - intros count. unfold Checked.delete. run_method.
    destruct count; decide_guard; try reflexivity.
    unfold id. destruct (_ >=? _); discriminate.
  - intros position. unfold Checked.setCursor. run_method.
    destruct position; decide_guard; try reflexivity. discriminate.
  - intros size. unfold Checked.setFontSize. run_method.
    destruct size; decide_guard; try reflexivity. discriminate.
Qed.

Lemma rejected_call_changes_nothing_witness :
  state (Checked.write EmptyString new_TextEditor) = new_TextEditor /\
  state (Checked.delete (Int (-1)) new_TextEditor) = new_TextEditor /\
  state (Checked.setCursor NaN new_TextEditor) = new_TextEditor /\
  state (Checked.setFontSize (Int 0) new_TextEditor) = new_TextEditor.
Proof.
  split; [|split; [|split]].
  - refine (proj1 (rejected_call_changes_nothing new_TextEditor
                     "Invalid text input") EmptyString _); reflexivity.
  - refine (proj1 (proj2 (rejected_call_changes_nothing new_TextEditor
                     "Invalid delete count")) (Int (-1)) _); reflexivity.
  - refine (proj1 (proj2 (proj2 (rejected_call_changes_nothing new_TextEditor
                     "Invalid cursor position"))) NaN _); reflexivity.
  - refine (proj2 (proj2 (proj2 (rejected_call_changes_nothing new_TextEditor
                     "Invalid font size"))) (Int 0) _); reflexivity.
Defined.

(** C10. Restoring the snapshot an editor has just created leaves its
    content, cursor and font size as they are, and the snapshot created
    right after [restore(c)] has the content, cursor and font size of [c]:
    for every snapshot in the unchecked classes, and for every snapshot
    the constructor accepts in the checked ones. *)
Theorem snapshot_restore_inverse (e : TextEditor) (c : EditorSnapshot)
    (now : Z) :
  (exists s : EditorSnapshot,
      Plain.createSnapshot now e = (Returned s, e) /\
      Plain.restore (Some s) e = (Returned tt, e)) /\
  (exists s : EditorSnapshot,
      Plain.createSnapshot now (state (Plain.restore (Some c) e)) =
        (Returned s, state (Plain.restore (Some c) e)) /\
      snapshot_fields s = snapshot_fields c) /\
  (0 <= cursorPosition e -> 0 < fontSize e ->
   exists s : EditorSnapshot,
     Checked.createSnapshot now e = (Returned s, e) /\
     Checked.restore (Some s) e = (Returned tt, e)) /\
  (snapshot_ok c ->
   exists s : EditorSnapshot,
     Checked.createSnapshot now (state (Checked.restore (Some c) e)) =
       (Returned s, state (Checked.restore (Some c) e)) /\
     snapshot_fields s = snapshot_fields c).
Proof.
  split; [|split; [|split]].
  - exists (snapshot_of now e). split; [apply createSnapshot_eq|].
    rewrite restore_eq. destruct e; reflexivity.
  - eexists. split; [apply createSnapshot_eq|]. reflexivity.
  - intros Hc Hf. exists (snapshot_of now e).
    split; [apply checked_createSnapshot_eq; assumption|].
    rewrite checked_restore_eq. destruct e; reflexivity.
  - intros [Hc Hf]. eexists.
    split; [apply checked_createSnapshot_eq; assumption|]. reflexivity.
Qed.

Lemma snapshot_restore_inverse_witness :
  (exists s : EditorSnapshot,
      Checked.createSnapshot 7 new_TextEditor = (Returned s, new_TextEditor) /\
      Checked.restore (Some s) new_TextEditor = (Returned tt, new_TextEditor)) /\
  (exists s : EditorSnapshot,
      Checked.createSnapshot 7
        (state (Checked.restore (Some (snapshot_of 1 new_TextEditor)) new_TextEditor)) =
        (Returned s,
         state (Checked.restore (Some (snapshot_of 1 new_TextEditor)) new_TextEditor)) /\
      snapshot_fields s = snapshot_fields (snapshot_of 1 new_TextEditor)).
Proof.
  split.
  - refine (proj1 (proj2 (proj2 (snapshot_restore_inverse new_TextEditor
              (snapshot_of 1 new_TextEditor) 7))) _ _); simpl; lia.
  - refine (proj2 (proj2 (proj2 (snapshot_restore_inverse new_TextEditor
              (snapshot_of 1 new_TextEditor) 7))) _).
    unfold snapshot_ok; simpl; lia.
Defined.

End EditorClaims.

(* ===================================================================== *)
(** ** What [undo] and [redo] restore *)
(* ===================================================================== *)

Section UndoRedo.
Import Js PlainSession.

Lemma run_edits_history (cs : list call) (w : World) :
  forallb is_edit cs = true -> history (run cs w) = history w.
Proof.
  intros Hcs. induction cs as [|c cs IH] using rev_ind; [reflexivity|].
  rewrite forallb_app in Hcs. apply andb_true_iff in Hcs as [Hcs Hc].
  simpl in Hc. rewrite andb_true_r in Hc.
  rewrite run_snoc, edit_history by exact Hc. apply IH, Hcs.
Qed.

(** After [saveState] and any edits, [undo] does not look at the snapshot
    just saved: it steps to the snapshot stored below it, and refuses when
    there is none. *)
Lemma undo_after_saveState (w : World) (now : Z) (cs : list call) :
  ledger_ok (history w) ->
  forallb is_edit cs = true ->
  let w1 := state (Plain.saveState now w) in
  let w2 := run cs w1 in
  index (snapshots (history w1)) (currentIndex (history w1)) =
    Some (snapshot_of now (editor w)) /\
  (currentIndex (history w1) <= 0 -> Plain.undo w2 = (Returned false, w2)) /\
  (0 < currentIndex (history w1) ->
   exists below : EditorSnapshot,
     index (snapshots (history w1)) (currentIndex (history w1) - 1) = Some below /\
     Plain.undo w2 =
       (Returned true,
        {| history := set_currentIndex (currentIndex (history w1) - 1) (history w1);
           editor := restored below |})).
Proof.
  intros Hok Hcs w1 w2.
  pose proof (saveState_ledger now w Hok) as (Hok1 & Htip1 & _ & _).
  fold w1 in Hok1, Htip1.
  assert (Hh : history w2 = history w1) by (apply run_edits_history, Hcs).
  split; [|split].
  - pose proof (length_slice0 (snapshots (history w))
                  (currentIndex (history w) + 1)) as Hl.
    pose proof (length_pushed now w (proj1 Hok)) as Hp.
    destruct Hok as (Hidx & Hmax & Hcap).
    unfold w1. rewrite saveState_eq. unfold state; cbn [snd history].
    destruct (Z.gtb_spec (Z.of_nat (length (pushed now w)))
                (maxHistorySize (history w)));
      cbn [snapshots currentIndex]; unfold pushed.
    + apply index_shift_last; lia.
    + apply index_last; lia.
  - intros Hle. rewrite undo_eq, Hh.
    destruct (Z.gtb_spec (currentIndex (history w1)) 0); [lia|reflexivity].
  - intros Hlt.
    destruct (index_in_range (snapshots (history w1))
                (currentIndex (history w1) - 1)) as [below Hbelow];
      [destruct Hok1; lia|].
    exists below. split; [exact Hbelow|].
    rewrite undo_eq, Hh, Hbelow.
    destruct (Z.gtb_spec (currentIndex (history w1)) 0); [reflexivity|lia].
Qed.

(** When [undo] succeeds, the [redo] that follows succeeds too, puts the
    caretaker back where it was, and gives the editor the snapshot stored
    at the index [undo] started from; the state the editor had before the
    [undo] plays no part. *)
Lemma redo_after_undo (w : World) :
  ledger_ok (history w) ->
  result (Plain.undo w) = Returned true ->
  exists s : EditorSnapshot,
    index (snapshots (history w)) (currentIndex (history w)) = Some s /\
    Plain.redo (state (Plain.undo w)) =
      (Returned true, {| history := history w; editor := restored s |}).
Proof.
  intros [Hidx Hmax] Hundo. rewrite undo_eq in Hundo |- *.
  destruct (Z.gtb_spec (currentIndex (history w)) 0) as [Hgt|Hle];
    [|discriminate].
  destruct (index_in_range (snapshots (history w)) (currentIndex (history w)))
    as [s Hs]; [lia|].
  exists s. split; [exact Hs|].
  destruct (index _ (currentIndex (history w) - 1)); [|discriminate].
  rewrite redo_eq. unfold state;
    cbn [snd history editor set_currentIndex snapshots currentIndex].
  destruct (Z.ltb_spec (currentIndex (history w) - 1)
              (Z.of_nat (length (snapshots (history w))) - 1)); [|lia].
  replace (currentIndex (history w) - 1 + 1) with (currentIndex (history w))
    by lia.
  rewrite Hs. destruct (history w); reflexivity.
Qed.

(** C1 (the code departs from the claim). From a fresh editor and
    caretaker: after [saveState; write("Hello")] a single [undo] returns
    false and the editor keeps "Hello"; and after
    [saveState; write("Hello"); saveState; write(" World!")], where the
    second [saveState] captured ("Hello", 5, 12), a single [undo] leaves
    the editor at the empty content with cursor 0 and font size 12, the
    state of the first capture.  The
    checked classes do the same.  Through the commands: after the initial
    [saveState] of the command line and the commands write "Hello World",
    font 16, delete 6, the last command saved ("Hello World", 11, 16), and
    [undo] leaves the editor at ("Hello World", 11, 12). *)
Theorem undo_misses_last_saved_state :
  Plain.undo (run [SaveState 0; Write "Hello"] new_World) =
    (Returned false, run [SaveState 0; Write "Hello"] new_World) /\
  editor_fields (editor (run [SaveState 0; Write "Hello"] new_World)) =
    ("Hello"%string, 5, 12) /\
  snapshot_fields (snapshot_of 1 (editor (run [SaveState 0; Write "Hello"] new_World))) =
    ("Hello"%string, 5, 12) /\
  result (Plain.undo
            (run [SaveState 0; Write "Hello"; SaveState 1; Write " World!"] new_World)) =
    Returned true /\
  editor_fields (editor (state (Plain.undo
            (run [SaveState 0; Write "Hello"; SaveState 1; Write " World!"] new_World)))) =
    (EmptyString, 0, 12) /\
  editor_fields (editor (state (Checked.undo
            (CheckedSession.run
               [CheckedSession.SaveState 0; CheckedSession.Write "Hello";
                CheckedSession.SaveState 1; CheckedSession.Write " World!"]
               new_World)))) =
    (EmptyString, 0, 12) /\
  (let w1 := state (Plain.saveState 0 new_World) in
   let w2 := state (Commands.WriteCommand_execute 1 "Hello World" w1) in
   let w3 := state (Commands.FormatCommand_execute 2 16 w2) in
   let w4 := state (Commands.DeleteCommand_execute 3 6 w3) in
   editor_fields (editor w3) = ("Hello World"%string, 11, 16) /\
   editor_fields (editor w4) = ("Hello"%string, 5, 16) /\
   result (Plain.undo w4) = Returned true /\
   editor_fields (editor (state (Plain.undo w4))) = ("Hello World"%string, 11, 12)).
Proof. repeat split. Qed.

(** C2 (the code departs from the claim). From a fresh editor and
    caretaker, [saveState; write("Hello"); saveState; write(" World!")]
    gives "Hello World!" with cursor 12; the first [undo] returns true and
    gives the empty content with cursor 0, not "Hello" with cursor 5; the second
    and the third [undo] return false and change nothing; the [redo] that
    follows returns true and gives "Hello" with cursor 5. *)
Theorem hello_world_trace :
  let w0 := run [SaveState 0; Write "Hello"; SaveState 1; Write " World!"] new_World in
  let w1 := state (Plain.undo w0) in
  let w2 := state (Plain.undo w1) in
  let w3 := state (Plain.undo w2) in
  let w4 := state (Plain.redo w3) in
  editor_fields (editor w0) = ("Hello World!"%string, 12, 12) /\
  result (Plain.undo w0) = Returned true /\
  editor_fields (editor w1) = (EmptyString, 0, 12) /\
  Plain.undo w1 = (Returned false, w1) /\
  Plain.undo w2 = (Returned false, w2) /\
  result (Plain.redo w3) = Returned true /\
  editor_fields (editor w4) = ("Hello"%string, 5, 12).
Proof. repeat split. Qed.

(** C3 (the code departs from the claim). From a fresh editor and
    caretaker, after [saveState; write("Hello"); saveState;
    write(" World!")] the editor is in state D = ("Hello World!", 12, 12);
    [undo] returns true, the [redo] that follows returns true as well, but
    leaves the editor at ("Hello", 5, 12), not at D. *)
Theorem redo_after_undo_misses_state_before_undo :
  let w0 := run [SaveState 0; Write "Hello"; SaveState 1; Write " World!"] new_World in
  editor_fields (editor w0) = ("Hello World!"%string, 12, 12) /\
  result (Plain.undo w0) = Returned true /\
  result (Plain.redo (state (Plain.undo w0))) = Returned true /\
  editor_fields (editor (state (Plain.redo (state (Plain.undo w0))))) =
    ("Hello"%string, 5, 12) /\
  editor_fields (editor (state (Plain.redo (state (Plain.undo w0))))) <>
    editor_fields (editor w0).
Proof. repeat split. discriminate. Qed.

End UndoRedo.

(* ===================================================================== *)
(** ** Sessions of the checked classes keep the document invariant *)
(* ===================================================================== *)

Section CheckedInvariant.
Import Js CheckedSession.

Lemma checked_write_ok (text : string) (e : TextEditor) :
  editor_ok e -> editor_ok (state (Checked.write text e)).
Proof.
  intros [Hc Hf]. destruct text as [|c text]; [split; assumption|].
  rewrite checked_write_eq by discriminate. rewrite write_eq.
  unfold cursor_in_text in Hc.
  unfold editor_ok, cursor_in_text, state;
    cbn [snd content cursorPosition fontSize].
  rewrite substring_prefix, substring_suffix by lia.
  rewrite !length_append, length_str_take, length_str_drop.
  split; [lia | exact Hf].
Qed.

(** A call either leaves the editor as it is or had an argument that
    passes the check. *)
Lemma checked_delete_cases (count : number) (e : TextEditor) :
  state (Checked.delete count e) = e \/ exists n, count = Int n /\ 0 <= n.
Proof.
  destruct count as [n|fl|neg|];
    [destruct (Z.ltb_spec n 0); [left|right; eauto] | left ..];
    unfold Checked.delete; run_method; decide_guard; try reflexivity; lia.
Qed.

Lemma checked_setCursor_cases (position : number) (e : TextEditor) :
  state (Checked.setCursor position e) = e \/
  exists p, position = Int p /\ 0 <= p.
Proof.
  destruct position as [n|fl|neg|];
    [destruct (Z.ltb_spec n 0); [left|right; eauto] | left ..];
    unfold Checked.setCursor; run_method; decide_guard; try reflexivity; lia.
Qed.

Lemma checked_setFontSize_cases (size : number) (e : TextEditor) :
  state (Checked.setFontSize size e) = e \/
  exists n, size = Int n /\ 0 < n.
Proof.
  destruct size as [n|fl|neg|];
    [destruct (Z.leb_spec n 0); [left|right; eauto] | left ..];
    unfold Checked.setFontSize; run_method; decide_guard; try reflexivity; lia.
Qed.

Lemma checked_delete_ok (count : number) (e : TextEditor) :
  editor_ok e -> editor_ok (state (Checked.delete count e)).
Proof.
  intros [Hc Hf].
  destruct (checked_delete_cases count e) as [Hthrow|[n [-> Hn]]].
  - rewrite Hthrow. split; assumption.
  - rewrite checked_delete_eq, delete_eq by exact Hn.
    unfold state; cbn [snd].
    destruct (Z.geb_spec (cursorPosition e) n); [|split; assumption].
    unfold cursor_in_text in Hc.
    unfold editor_ok, cursor_in_text; cbn [content cursorPosition fontSize].
    rewrite substring_prefix, substring_suffix by lia.
    rewrite !length_append, length_str_take, length_str_drop.
    split; [lia | exact Hf].
Qed.

Lemma checked_setCursor_ok (position : number) (e : TextEditor) :
  editor_ok e -> editor_ok (state (Checked.setCursor position e)).
Proof.
  intros [Hc Hf].
  destruct (checked_setCursor_cases position e) as [Hthrow|[p [-> Hp]]].
  - rewrite Hthrow. split; assumption.
  - unfold Checked.setCursor. run_method. decide_guard; [lia|].
    unfold editor_ok, cursor_in_text; cbn. split; [lia | exact Hf].
Qed.

Lemma checked_setFontSize_ok (size : number) (e : TextEditor) :
  editor_ok e -> editor_ok (state (Checked.setFontSize size e)).
Proof.
  intros [Hc Hf].
  destruct (checked_setFontSize_cases size e) as [Hthrow|[n [-> Hn]]].
  - rewrite Hthrow. split; assumption.
  - unfold Checked.setFontSize. run_method. decide_guard; [lia|].
    unfold editor_ok, cursor_in_text; cbn. split; [exact Hc | lia].
Qed.

Lemma checked_undo_eq (w : World) :
  Checked.undo w =
  if currentIndex (history w) >? 0 then
    match index (snapshots (history w)) (currentIndex (history w) - 1) with
    | Some s =>
        if Checked.isValid s then
          (Returned true,
           {| history := set_currentIndex (currentIndex (history w) - 1) (history w);
              editor := restored s |})
        else
          (Returned false,
           {| history := set_currentIndex (currentIndex (history w) - 1) (history w);
              editor := editor w |})
    | None =>
        (Returned false,
         {| history := set_currentIndex (currentIndex (history w) - 1) (history w);
            editor := editor w |})
    end
  else (Returned false, w).
Proof.
  unfold Checked.undo, Checked.restore. run_method.
  destruct (_ >? _); [|reflexivity].
  destruct (index _ _) as [s|]; [|reflexivity].
  destruct (Checked.isValid s); reflexivity.
Qed.

Lemma checked_redo_eq (w : World) :
  Checked.redo w =
  if currentIndex (history w) <? Z.of_nat (length (snapshots (history w))) - 1 then
    match index (snapshots (history w)) (currentIndex (history w) + 1) with
    | Some s =>
        if Checked.isValid s then
          (Returned true,
           {| history := set_currentIndex (currentIndex (history w) + 1) (history w);
              editor := restored s |})
        else
          (Returned false,
           {| history := set_currentIndex (currentIndex (history w) + 1) (history w);
              editor := editor w |})
    | None =>
        (Returned false,
         {| history := set_currentIndex (currentIndex (history w) + 1) (history w);
            editor := editor w |})
    end
  else (Returned false, w).
Proof.
  unfold Checked.redo, Checked.restore. run_method.
  destruct (_ <? _); [|reflexivity].
  destruct (index _ _) as [s|]; [|reflexivity].
  destruct (Checked.isValid s); reflexivity.
Qed.

Lemma index_Forall {A : Type} (P : A -> Prop) (arr : list A) (i : Z) (x : A) :
  Forall P arr -> index arr i = Some x -> P x.
Proof.
  intros Hall. unfold index. destruct (i <? 0); [discriminate|].
  intros Hx. exact (proj1 (Forall_lookup P arr) Hall _ _ Hx).
Qed.

Lemma checked_saveState_ok (now : Z) (w : World) :
  world_ok w -> world_ok (state (Checked.saveState now w)).
Proof.
  intros ((Hc & Hf) & Hok & Hall).
  rewrite checked_saveState_eq by (unfold cursor_in_text in Hc; lia).
  split; [|split].
  - rewrite saveState_editor. split; assumption.
  - apply saveState_ledger, Hok.
  - assert (Hp : Forall (fun s => editor_ok (restored s)) (pushed now w)).
    { unfold pushed, push, slice0. apply Forall_app. split.
      - apply Forall_take, Hall.
      - apply Forall_cons. split; [|apply Forall_nil_2].
        unfold restored, snapshot_of; simpl.
        destruct (editor w); split; assumption. }
    rewrite saveState_eq. unfold state; cbn [snd history].
    destruct (_ >? _); cbn [snapshots]; [apply Forall_drop|]; exact Hp.
Qed.

Lemma checked_undo_ok (w : World) :
  world_ok w -> world_ok (state (Checked.undo w)).
Proof.
  intros (He & Hok & Hall). rewrite checked_undo_eq.
  destruct (Z.gtb_spec (currentIndex (history w)) 0); [|exact (conj He (conj Hok Hall))].
  assert (Hok' : ledger_ok
            (set_currentIndex (currentIndex (history w) - 1) (history w))).
  { unfold ledger_ok in *; simpl; lia. }
  destruct (index _ _) as [s|] eqn:Hs; [destruct (Checked.isValid s)|];
    unfold world_ok, state; cbn [snd history editor];
    (split; [|split; [exact Hok' | exact Hall]]); try exact He.
  exact (index_Forall _ _ _ _ Hall Hs).
Qed.

Lemma checked_redo_ok (w : World) :
  world_ok w -> world_ok (state (Checked.redo w)).
Proof.
  intros (He & Hok & Hall). rewrite checked_redo_eq.
  destruct (Z.ltb_spec (currentIndex (history w))
              (Z.of_nat (length (snapshots (history w))) - 1));
    [|exact (conj He (conj Hok Hall))].
  assert (Hok' : ledger_ok
            (set_currentIndex (currentIndex (history w) + 1) (history w))).
  { unfold ledger_ok in *; simpl; lia. }
  destruct (index _ _) as [s|] eqn:Hs; [destruct (Checked.isValid s)|];
    unfold world_ok, state; cbn [snd history editor];
    (split; [|split; [exact Hok' | exact Hall]]); try exact He.
  exact (index_Forall _ _ _ _ Hall Hs).
Qed.

Lemma checked_setMaxHistorySize_ok (size : number) (h : HistoryManager) :
  ledger_ok h ->
  let h' := state (Checked.setMaxHistorySize size h) in
  ledger_ok h' /\ exists n : nat, snapshots h' = drop n (snapshots h).
Proof.
  intros Hok. cbv zeta.
  unfold Checked.setMaxHistorySize. run_method.
  destruct size as [n|fl|neg|]; decide_guard;
    try (split; [exact Hok | exists 0%nat; reflexivity]).
  unfold id; cbn.
  destruct (Z.gtb_spec (Z.of_nat (length (snapshots h))) n).
  - cbn. unfold ledger_ok, splice0; simpl. rewrite length_drop.
    split; [unfold ledger_ok in Hok; lia | eexists; reflexivity].
  - cbn. split; [unfold ledger_ok in *; simpl; lia | exists 0%nat; reflexivity].
Qed.

Lemma on_editor_state {A : Type} (m : M TextEditor A) (w : World) :
  state (on_editor m w) =
  {| history := history w; editor := state (m (editor w)) |}.
Proof. unfold on_editor, state. destruct (m (editor w)); reflexivity. Qed.

Lemma on_history_state {A : Type} (m : M HistoryManager A) (w : World) :
  state (on_history m w) =
  {| history := state (m (history w)); editor := editor w |}.
Proof. unfold on_history, state. destruct (m (history w)); reflexivity. Qed.

Lemma checked_perform_ok (c : call) (w : World) :
  world_ok w -> world_ok (perform c w).
Proof.
  intros Hw. pose proof Hw as (He & Hok & Hall).
  destruct c; cbn [perform];
    rewrite ?on_editor_state, ?on_history_state.
  - split; [apply checked_write_ok, He | split; assumption].
  - split; [apply checked_delete_ok, He | split; assumption].
  - split; [apply checked_setCursor_ok, He | split; assumption].
  - split; [apply checked_setFontSize_ok, He | split; assumption].
  - apply checked_saveState_ok, Hw.
  - apply checked_undo_ok, Hw.
  - apply checked_redo_ok, Hw.
  - split; [exact He|]. split; [|apply Forall_nil_2].
    unfold ledger_ok in *; simpl; lia.
  - destruct (checked_setMaxHistorySize_ok size (history w) Hok)
      as (Hok' & n & Hn).
    split; [exact He|]. split; [exact Hok'|].
    cbn [history]. rewrite Hn. apply Forall_drop, Hall.
Qed.

Lemma checked_run_snoc (cs : list call) (c : call) (w : World) :
  run (cs ++ [c]) w = perform c (run cs w).
Proof. unfold run. rewrite foldl_app. reflexivity. Qed.

Lemma checked_run_ok (cs : list call) (w : World) :
  world_ok w -> world_ok (run cs w).
Proof.
  intros Hw. induction cs as [|c cs IH] using rev_ind; [exact Hw|].
  rewrite checked_run_snoc. apply checked_perform_ok, IH.
Qed.

(** Every editor and caretaker reached by calls of the checked methods
    from fresh objects: the cursor lies within the text, the font size is
    positive, and the caretaker's index is in range. *)
Lemma checked_reachable_ok (w : World) :
  reachable w -> world_ok w.
Proof.
  intros [cs ->]. apply checked_run_ok. split; [|split].
  - unfold editor_ok, cursor_in_text; simpl; lia.
  - unfold ledger_ok; simpl; lia.
  - apply Forall_nil_2.
Qed.

(** On every document reached through the checked methods, [write(t)]
    followed by [delete(t.length)] gives the document back. *)
Lemma write_delete_reachable (w : World) (text : string) :
  reachable w ->
  text <> EmptyString ->
  exists e1 : TextEditor,
    Checked.write text (editor w) = (Returned tt, e1) /\
    Checked.delete (Int (Z.of_nat (String.length text))) e1 =
      (Returned tt, editor w).
Proof.
  intros Hreach Htext. apply write_delete_checked; [|exact Htext].
  apply (checked_reachable_ok w Hreach).
Qed.





End CheckedInvariant.

(* ===================================================================== *)
(** ** The caretaker over whole sessions *)
(* ===================================================================== *)

Section CaretakerSessions.
Import Js PlainSession.

Lemma perform_capacity (c : call) (w : World) :
  maxHistorySize (history (perform c w)) = maxHistorySize (history w).
Proof.
  destruct c; cbn [perform]; rewrite ?on_editor_state, ?on_history_state;
    try reflexivity.
  - rewrite saveState_eq. unfold state; cbn [snd history].
    destruct (_ >? _); reflexivity.
  - rewrite undo_eq. destruct (_ >? _); [|reflexivity].
    destruct (index _ _); reflexivity.
  - rewrite redo_eq. destruct (_ <? _); [|reflexivity].
    destruct (index _ _); reflexivity.
Qed.

Lemma run_capacity (cs : list call) (w : World) :
  maxHistorySize (history (run cs w)) = maxHistorySize (history w).
Proof.
  induction cs as [|c cs IH] using rev_ind; [reflexivity|].
  rewrite run_snoc, perform_capacity. exact IH.
Qed.

(** X1. Whatever methods of the unchecked editor and caretaker are called
    on fresh objects, in any order and with any arguments, the caretaker's
    index stays between -1 and the last position of its array, the array
    never holds more than 50 snapshots, and the capacity stays 50. *)
Theorem plain_caretaker_invariant (w : World) :
  reachable w ->
  -1 <= currentIndex (history w) < Z.of_nat (length (snapshots (history w))) /\
  Z.of_nat (length (snapshots (history w))) <= 50 /\
  maxHistorySize (history w) = 50.
Proof.
  intros Hreach.
  pose proof (reachable_ledger_ok w Hreach) as (Hidx & Hlen & _).
  destruct Hreach as [cs ->].
  pose proof (run_capacity cs new_World) as Hcap. cbn in Hcap.
  rewrite Hcap in Hlen. auto.
Qed.

Lemma plain_caretaker_invariant_witness :
  let w := run [SaveState 1; Write "a"; SaveState 2; Delete (-4); Undo; Undo; Redo]
               new_World in
  -1 <= currentIndex (history w) < Z.of_nat (length (snapshots (history w))) /\
  Z.of_nat (length (snapshots (history w))) <= 50 /\
  maxHistorySize (history w) = 50.
Proof.
  apply (plain_caretaker_invariant
           (run [SaveState 1; Write "a"; SaveState 2; Delete (-4); Undo; Undo; Redo]
                new_World)).
  exists [SaveState 1; Write "a"; SaveState 2; Delete (-4); Undo; Undo; Redo].
  reflexivity.
Defined.

Lemma undo_follows_guard (w : World) :
  ledger_ok (history w) ->
  result (Plain.undo w) = Returned (Plain.canUndo (history w)) /\
  (Plain.canUndo (history w) = false -> Plain.undo w = (Returned false, w)).
Proof.
  intros (Hidx & _). rewrite undo_eq. unfold Plain.canUndo.
  destruct (Z.gtb_spec (currentIndex (history w)) 0) as [Hgt|Hle].
  - destruct (index_in_range (snapshots (history w))
                (currentIndex (history w) - 1)) as [s Hs]; [lia|].
    rewrite Hs. split; [reflexivity | discriminate].
  - split; reflexivity.
Qed.

Lemma redo_follows_guard (w : World) :
  ledger_ok (history w) ->
  result (Plain.redo w) = Returned (Plain.canRedo (history w)) /\
  (Plain.canRedo (history w) = false -> Plain.redo w = (Returned false, w)).
Proof.
  intros (Hidx & _). rewrite redo_eq. unfold Plain.canRedo.
  destruct (Z.ltb_spec (currentIndex (history w))
              (Z.of_nat (length (snapshots (history w))) - 1)) as [Hlt|Hge].
  - destruct (index_in_range (snapshots (history w))
                (currentIndex (history w) + 1)) as [s Hs]; [lia|].
    rewrite Hs. split; [reflexivity | discriminate].
  - split; reflexivity.
Qed.

(** X2. In every reachable state of the unchecked classes [undo] and
    [redo] never throw: [undo] returns what [canUndo()] answers and [redo]
    what [canRedo()] answers, and when the answer is false neither the
    caretaker nor the editor changes. *)
Theorem undo_redo_follow_guards (w : World) :
  reachable w ->
  result (Plain.undo w) = Returned (Plain.canUndo (history w)) /\
  (Plain.canUndo (history w) = false -> Plain.undo w = (Returned false, w)) /\
  result (Plain.redo w) = Returned (Plain.canRedo (history w)) /\
  (Plain.canRedo (history w) = false -> Plain.redo w = (Returned false, w)).
Proof.
  intros Hreach. pose proof (reachable_ledger_ok w Hreach) as Hok.
  destruct (undo_follows_guard w Hok) as [Hu1 Hu2].
  destruct (redo_follows_guard w Hok) as [Hr1 Hr2].
  auto.
Qed.

Lemma undo_redo_follow_guards_witness :
  let w := run [SaveState 1; Write "a"; SaveState 2; Write "b"; Undo] new_World in
  result (Plain.undo w) = Returned false /\
  result (Plain.redo w) = Returned true.
Proof.
  assert (Hreach : reachable
            (run [SaveState 1; Write "a"; SaveState 2; Write "b"; Undo] new_World)).
  { exists [SaveState 1; Write "a"; SaveState 2; Write "b"; Undo]. reflexivity. }
  split.
  - exact (proj1 (undo_redo_follow_guards _ Hreach)).
  - exact (proj1 (proj2 (proj2 (undo_redo_follow_guards _ Hreach)))).
Defined.

Lemma undo_after_redo (w : World) :
  ledger_ok (history w) ->
  0 <= currentIndex (history w) ->
  result (Plain.redo w) = Returned true ->
  exists s : EditorSnapshot,
    index (snapshots (history w)) (currentIndex (history w)) = Some s /\
    Plain.undo (state (Plain.redo w)) =
      (Returned true, {| history := history w; editor := restored s |}).
Proof.
  intros [Hidx Hmax] Hnn Hredo. rewrite redo_eq in Hredo |- *.
  destruct (Z.ltb_spec (currentIndex (history w))
              (Z.of_nat (length (snapshots (history w))) - 1)) as [Hlt|Hge];
    [|discriminate].
  destruct (index _ (currentIndex (history w) + 1)) eqn:Hup; [|discriminate].
  destruct (index_in_range (snapshots (history w)) (currentIndex (history w)))
    as [s Hs]; [lia|].
  exists s. split; [exact Hs|].
  rewrite undo_eq. unfold state;
    cbn [snd history editor set_currentIndex snapshots currentIndex].
  destruct (Z.gtb_spec (currentIndex (history w) + 1) 0); [|lia].
  replace (currentIndex (history w) + 1 - 1) with (currentIndex (history w))
    by lia.
  rewrite Hs. destruct (history w); reflexivity.
Qed.

(** The index is -1 only while the array is empty. *)
Lemma perform_index_nonneg (c : call) (w : World) :
  ledger_ok (history w) ->
  (snapshots (history w) <> [] -> 0 <= currentIndex (history w)) ->
  snapshots (history (perform c w)) <> [] ->
  0 <= currentIndex (history (perform c w)).
Proof.
  intros Hok Hnn.
  destruct c; cbn [perform]; rewrite ?on_editor_state, ?on_history_state;
    cbn [history]; try exact Hnn.
  - intros _.
    pose proof (saveState_ledger now w Hok) as (_ & Htip & _ & Hlen).
    cbv zeta in Htip, Hlen. unfold at_tip in Htip.
    destruct Hok as (Hidx & _ & Hcap). lia.
  - rewrite undo_eq.
    destruct (Z.gtb_spec (currentIndex (history w)) 0); [|exact Hnn].
    intros _. destruct (index _ _); unfold state; simpl; lia.
  - rewrite redo_eq.
    destruct (Z.ltb_spec (currentIndex (history w))
                (Z.of_nat (length (snapshots (history w))) - 1)); [|exact Hnn].
    intros _. destruct Hok as (Hidx & _).
    destruct (index _ _); unfold state; simpl; lia.
  - intros H. exfalso. apply H. reflexivity.
Qed.

Lemma reachable_index_nonneg (w : World) :
  reachable w ->
  snapshots (history w) <> [] -> 0 <= currentIndex (history w).
Proof.
  intros [cs ->]. induction cs as [|c cs IH] using rev_ind.
  - intros H. exfalso. apply H. reflexivity.
  - rewrite run_snoc. apply perform_index_nonneg; [|exact IH].
    apply run_ledger, new_ledger_ok.
Qed.

(** X3. In every reachable state of the unchecked classes, a successful
    [undo] followed by [redo], and a successful [redo] followed by [undo],
    both succeed, leave the caretaker exactly as it was, and leave in the
    editor the snapshot stored at the caretaker's index, whatever the editor
    held before. *)
Theorem undo_redo_cancel_on_caretaker (w : World) :
  reachable w ->
  (result (Plain.undo w) = Returned true ->
   exists s : EditorSnapshot,
     index (snapshots (history w)) (currentIndex (history w)) = Some s /\
     Plain.redo (state (Plain.undo w)) =
       (Returned true, {| history := history w; editor := restored s |})) /\
  (result (Plain.redo w) = Returned true ->
   exists s : EditorSnapshot,
     index (snapshots (history w)) (currentIndex (history w)) = Some s /\
     Plain.undo (state (Plain.redo w)) =
       (Returned true, {| history := history w; editor := restored s |})).
Proof.
  intros Hreach. pose proof (reachable_ledger_ok w Hreach) as Hok.
  split.
  - apply redo_after_undo, Hok.
  - intros Hredo. apply undo_after_redo; [exact Hok | | exact Hredo].
    apply reachable_index_nonneg; [exact Hreach|].
    assert (Hc : Plain.canRedo (history w) = true).
    { destruct (redo_follows_guard w Hok) as [Hr _].
      rewrite Hr in Hredo. congruence. }
    unfold Plain.canRedo in Hc. apply Z.ltb_lt in Hc.
    intros Hnil. rewrite Hnil in Hc. simpl in Hc. destruct Hok; lia.
Qed.

Lemma undo_redo_cancel_on_caretaker_witness :
  let w := run [SaveState 1; Write "a"; SaveState 2; Write "b"; SaveState 3; Undo]
               new_World in
  (exists s : EditorSnapshot,
     index (snapshots (history w)) (currentIndex (history w)) = Some s /\
     Plain.redo (state (Plain.undo w)) =
       (Returned true, {| history := history w; editor := restored s |})) /\
  (exists s : EditorSnapshot,
     index (snapshots (history w)) (currentIndex (history w)) = Some s /\
     Plain.undo (state (Plain.redo w)) =
       (Returned true, {| history := history w; editor := restored s |})).
Proof.
  assert (Hreach : reachable
            (run [SaveState 1; Write "a"; SaveState 2; Write "b"; SaveState 3; Undo]
                 new_World)).
  { exists [SaveState 1; Write "a"; SaveState 2; Write "b"; SaveState 3; Undo].
    reflexivity. }
  split.
  - apply (proj1 (undo_redo_cancel_on_caretaker _ Hreach)). reflexivity.
  - apply (proj2 (undo_redo_cancel_on_caretaker _ Hreach)). reflexivity.
Defined.

(** X4. In every reachable state of the unchecked classes, after
    [saveState] and any edits the snapshot just taken sits at the
    caretaker's index, but [undo] does not restore it: with the index at 0
    [undo] returns false and changes nothing, and otherwise it returns true
    and gives the editor the snapshot stored one position below. *)
Theorem undo_steps_below_saved_state (w : World) (now : Z) (cs : list call) :
  reachable w ->
  forallb is_edit cs = true ->
  index (snapshots (history (state (Plain.saveState now w))))
        (currentIndex (history (state (Plain.saveState now w)))) =
    Some (snapshot_of now (editor w)) /\
  (currentIndex (history (state (Plain.saveState now w))) <= 0 ->
   Plain.undo (run cs (state (Plain.saveState now w))) =
     (Returned false, run cs (state (Plain.saveState now w)))) /\
  (0 < currentIndex (history (state (Plain.saveState now w))) ->
   exists below : EditorSnapshot,
     index (snapshots (history (state (Plain.saveState now w))))
           (currentIndex (history (state (Plain.saveState now w))) - 1) =
       Some below /\
     Plain.undo (run cs (state (Plain.saveState now w))) =
       (Returned true,
        {| history :=
             set_currentIndex
               (currentIndex (history (state (Plain.saveState now w))) - 1)
               (history (state (Plain.saveState now w)));
           editor := restored below |})).
Proof.
  intros Hreach Hcs.
  exact (undo_after_saveState w now cs (reachable_ledger_ok w Hreach) Hcs).
Qed.

Lemma undo_steps_below_saved_state_witness :
  let w := run [SaveState 1; Write "a"] new_World in
  let w1 := state (Plain.saveState 2 w) in
  let w2 := run [Write "b"; SetFontSize 20] w1 in
  index (snapshots (history w1)) (currentIndex (history w1)) =
    Some (snapshot_of 2 (editor w)) /\
  exists below : EditorSnapshot,
    index (snapshots (history w1)) (currentIndex (history w1) - 1) = Some below /\
    Plain.undo w2 =
      (Returned true,
       {| history := set_currentIndex (currentIndex (history w1) - 1) (history w1);
          editor := restored below |}).
Proof.
  assert (Hreach : reachable (run [SaveState 1; Write "a"] new_World)).
  { exists [SaveState 1; Write "a"]. reflexivity. }
  pose proof (undo_steps_below_saved_state
                (run [SaveState 1; Write "a"] new_World) 2
                [Write "b"; SetFontSize 20] Hreach eq_refl) as (Hsaved & _ & Hundo).
  split; [exact Hsaved|]. apply Hundo. simpl; lia.
Defined.

(** X5. After [saveState] on a caretaker that satisfies its invariant,
    and any edits, when the caretaker's index is above 0 the pair [undo],
    [redo] returns true twice and leaves the editor in exactly the state
    [saveState] captured, with the caretaker as [saveState] left it. *)
Theorem undo_then_redo_recovers_saved_state (w : World) (now : Z)
    (cs : list call) :
  ledger_ok (history w) ->
  forallb is_edit cs = true ->
  0 < currentIndex (history (state (Plain.saveState now w))) ->
  result (Plain.undo (run cs (state (Plain.saveState now w)))) = Returned true /\
  Plain.redo (state (Plain.undo (run cs (state (Plain.saveState now w))))) =
    (Returned true,
     {| history := history (state (Plain.saveState now w)); editor := editor w |}).
Proof.
  intros Hok Hcs Hpos.
  set (w1 := state (Plain.saveState now w)) in *.
  set (w2 := run cs w1).
  pose proof (undo_after_saveState w now cs Hok Hcs) as (Hsaved & _ & Hundo).
  fold w1 in Hsaved, Hundo. fold w2 in Hundo.
  destruct (Hundo Hpos) as (below & Hbelow & Hu).
  assert (Hh : history w2 = history w1) by (apply run_edits_history, Hcs).
  assert (Hok2 : ledger_ok (history w2)).
  { rewrite Hh. apply saveState_ledger, Hok. }
  assert (Hres : result (Plain.undo w2) = Returned true) by (rewrite Hu; reflexivity).
  split; [exact Hres|].
  destruct (redo_after_undo w2 Hok2 Hres) as (s & Hs & Hredo).
  rewrite Hredo, Hh. rewrite Hh, Hsaved in Hs. injection Hs as <-.
  unfold restored, snapshot_of; simpl. destruct (editor w); reflexivity.
Qed.

Lemma undo_then_redo_recovers_saved_state_witness :
  let w := run [SaveState 1; Write "Hello"] new_World in
  Plain.redo (state (Plain.undo
      (run [Write " World!"; SetFontSize 16] (state (Plain.saveState 2 w))))) =
    (Returned true,
     {| history := history (state (Plain.saveState 2 w)); editor := editor w |}).
Proof.
  refine (proj2 (undo_then_redo_recovers_saved_state
                   (run [SaveState 1; Write "Hello"] new_World) 2
                   [Write " World!"; SetFontSize 16] _ _ _)).
  - unfold ledger_ok; simpl; lia.
  - reflexivity.
  - simpl; lia.
Defined.

End CaretakerSessions.

(* ===================================================================== *)
(** ** The checked classes over whole sessions *)
(* ===================================================================== *)

Section CheckedSessions.
Import Js CheckedSession.

Lemma isValid_restored_ok (s : EditorSnapshot) :
  editor_ok (restored s) -> Checked.isValid s = true.
Proof.
  intros [[Hc _] Hf]. unfold restored in *; simpl in *.
  unfold Checked.isValid. apply andb_true_iff.
  split; [apply Z.geb_le | apply Z.gtb_lt]; lia.
Qed.



Lemma checked_undo_plain (w : World) :
  world_ok w -> Checked.undo w = Plain.undo w.
Proof.
  intros (_ & (Hidx & _) & Hall). rewrite checked_undo_eq, undo_eq.
  destruct (Z.gtb_spec (currentIndex (history w)) 0); [|reflexivity].
  destruct (index_in_range (snapshots (history w))
              (currentIndex (history w) - 1)) as [s Hs]; [lia|].
  rewrite Hs.
  rewrite (isValid_restored_ok s (index_Forall _ _ _ _ Hall Hs)). reflexivity.
Qed.

Lemma checked_redo_plain (w : World) :
  world_ok w -> Checked.redo w = Plain.redo w.
Proof.
  intros (_ & (Hidx & _) & Hall). rewrite checked_redo_eq, redo_eq.
  destruct (Z.ltb_spec (currentIndex (history w))
              (Z.of_nat (length (snapshots (history w))) - 1)); [|reflexivity].
  destruct (index_in_range (snapshots (history w))
              (currentIndex (history w) + 1)) as [s Hs]; [lia|].
  rewrite Hs.
  rewrite (isValid_restored_ok s (index_Forall _ _ _ _ Hall Hs)). reflexivity.
Qed.

(** X7. In every reachable state of the checked classes the defensive
    branches of the caretaker never fire: [saveState] returns without
    throwing, [undo] returns what [canUndo()] answers and [redo] what
    [canRedo()] answers (never false because of a caught error), and all
    three leave the objects as the unchecked methods do. *)
Theorem checked_caretaker_never_fails (w : World) (now : Z) :
  reachable w ->
  Checked.saveState now w = Plain.saveState now w /\
  result (Checked.saveState now w) = Returned tt /\
  Checked.undo w = Plain.undo w /\
  result (Checked.undo w) = Returned (Checked.canUndo (history w)) /\
  Checked.redo w = Plain.redo w /\
  result (Checked.redo w) = Returned (Checked.canRedo (history w)).
Proof.
  intros Hreach. pose proof (checked_reachable_ok w Hreach) as Hw.
  pose proof Hw as ((Hc & Hf) & Hok & _). unfold cursor_in_text in Hc.
  assert (Hsave : Checked.saveState now w = Plain.saveState now w)
    by (apply checked_saveState_eq; lia).
  split; [exact Hsave|].
  split; [rewrite Hsave, saveState_eq; reflexivity|].
  rewrite (checked_undo_plain w Hw), (checked_redo_plain w Hw).
  split; [reflexivity|].
  split; [exact (proj1 (undo_follows_guard w Hok))|].
  split; [reflexivity|].
  exact (proj1 (redo_follows_guard w Hok)).
Qed.

Lemma checked_caretaker_never_fails_witness :
  let w := run [SaveState 1; Write "Hello"; SaveState 2; SetFontSize (Int 30);
                SetMaxHistorySize (Int 1)] new_World in
  result (Checked.saveState 3 w) = Returned tt /\
  result (Checked.undo w) = Returned (Checked.canUndo (history w)).
Proof.
  assert (Hreach : reachable
            (run [SaveState 1; Write "Hello"; SaveState 2; SetFontSize (Int 30);
                  SetMaxHistorySize (Int 1)] new_World)).
  { eexists. reflexivity. }
  split.
  - exact (proj1 (proj2 (checked_caretaker_never_fails _ 3 Hreach))).
  - exact (proj1 (proj2 (proj2 (proj2 (checked_caretaker_never_fails _ 3 Hreach))))).
Defined.

End CheckedSessions.

(* ===================================================================== *)
(** ** Clearing the history, changing its capacity, building snapshots *)
(* ===================================================================== *)

Section CaretakerMaintenance.
Import Js.

(** X8. [clearHistory()], unchecked or checked, never throws and leaves
    the editor and the capacity alone; afterwards the caretaker reports 0
    snapshots at index -1, [canUndo()] and [canRedo()] are false, and [undo]
    and [redo] return false and change nothing.  With a capacity of at least
    1, the next [saveState] leaves exactly the new snapshot at index 0, and
    [undo] is still refused. *)
Theorem clearHistory_forgets (w : World) (now : Z) :
  1 <= maxHistorySize (history w) ->
  on_history Checked.clearHistory w = on_history Plain.clearHistory w /\
  result (on_history Plain.clearHistory w) = Returned tt /\
  editor (state (on_history Plain.clearHistory w)) = editor w /\
  maxHistorySize (history (state (on_history Plain.clearHistory w))) =
    maxHistorySize (history w) /\
  Plain.getHistoryInfo (history (state (on_history Plain.clearHistory w))) = (0, -1) /\
  Plain.canUndo (history (state (on_history Plain.clearHistory w))) = false /\
  Plain.canRedo (history (state (on_history Plain.clearHistory w))) = false /\
  Plain.undo (state (on_history Plain.clearHistory w)) =
    (Returned false, state (on_history Plain.clearHistory w)) /\
  Plain.redo (state (on_history Plain.clearHistory w)) =
    (Returned false, state (on_history Plain.clearHistory w)) /\
  Checked.undo (state (on_history Plain.clearHistory w)) =
    (Returned false, state (on_history Plain.clearHistory w)) /\
  Checked.redo (state (on_history Plain.clearHistory w)) =
    (Returned false, state (on_history Plain.clearHistory w)) /\
  snapshots (history (state (Plain.saveState now
                               (state (on_history Plain.clearHistory w))))) =
    [snapshot_of now (editor w)] /\
  currentIndex (history (state (Plain.saveState now
                                  (state (on_history Plain.clearHistory w))))) = 0 /\
  Plain.canUndo (history (state (Plain.saveState now
                                   (state (on_history Plain.clearHistory w))))) = false.
Proof.
  intros Hcap.
  assert (Hcleared : state (on_history Plain.clearHistory w) =
            {| history := {| snapshots := []; currentIndex := -1;
                             maxHistorySize := maxHistorySize (history w) |};
               editor := editor w |}) by reflexivity.
  rewrite Hcleared.
  repeat (split; [reflexivity|]).
  set (cleared := {| history := {| snapshots := []; currentIndex := -1;
                                   maxHistorySize := maxHistorySize (history w) |};
                     editor := editor w |}).
  assert (Hp : pushed now cleared = [snapshot_of now (editor w)]) by reflexivity.
  rewrite saveState_eq, Hp. unfold state; cbn [snd history length].
  change (maxHistorySize (history cleared)) with (maxHistorySize (history w)).
  destruct (Z.gtb_spec (Z.of_nat 1) (maxHistorySize (history w))); [lia|].
  repeat split.
Qed.

Lemma clearHistory_forgets_witness :
  let w := PlainSession.run
             [PlainSession.SaveState 1; PlainSession.Write "a";
              PlainSession.SaveState 2] new_World in
  Plain.undo (state (on_history Plain.clearHistory w)) =
    (Returned false, state (on_history Plain.clearHistory w)) /\
  snapshots (history (state (Plain.saveState 3
                               (state (on_history Plain.clearHistory w))))) =
    [snapshot_of 3 (editor w)].
Proof.
  pose proof (clearHistory_forgets
                (PlainSession.run
                   [PlainSession.SaveState 1; PlainSession.Write "a";
                    PlainSession.SaveState 2] new_World) 3) as H.
  split.
  - refine (proj1 (proj2 (proj2 (proj2 (proj2 (proj2 (proj2 (proj2 (H _))))))))).
    simpl; lia.
  - refine (proj1 (proj2 (proj2 (proj2 (proj2 (proj2 (proj2 (proj2
              (proj2 (proj2 (proj2 (proj2 (H _))))))))))))).
    simpl; lia.
Defined.

Lemma setMaxHistorySize_eq (n : Z) (h : HistoryManager) :
  0 < n ->
  Checked.setMaxHistorySize (Int n) h =
  (Returned tt,
   if Z.of_nat (length (snapshots h)) >? n then
     {| snapshots := drop (Z.to_nat (Z.of_nat (length (snapshots h)) - n)) (snapshots h);
        currentIndex :=
          Z.max 0 (currentIndex h - (Z.of_nat (length (snapshots h)) - n));
        maxHistorySize := n |}
   else
     {| snapshots := snapshots h; currentIndex := currentIndex h;
        maxHistorySize := n |}).
Proof.
  intros Hn. unfold Checked.setMaxHistorySize. run_method.
  decide_guard; [lia|]. unfold id; cbn.
  destruct (_ >? _); reflexivity.
Qed.

Lemma index_drop {A : Type} (arr : list A) (k i : Z) :
  0 <= k <= i ->
  index (drop (Z.to_nat k) arr) (i - k) = index arr i.
Proof.
  intros Hk. unfold index.
  destruct (Z.ltb_spec (i - k) 0); [lia|].
  destruct (Z.ltb_spec i 0); [lia|].
  rewrite lookup_drop. f_equal. lia.
Qed.

(** X9. The checked [setMaxHistorySize(size)] throws, changing nothing,
    exactly when [size] is at most zero or not an integer.  For an integer
    [size > 0] it sets the capacity and keeps the newest [size] snapshots,
    dropping the oldest ones; the array then holds [min length size]
    snapshots.  On a caretaker whose index is in range the index stays in
    range; it still points at the same snapshot when that one is kept, and
    at the oldest kept snapshot when it was dropped. *)
Theorem setMaxHistorySize_keeps_newest (h : HistoryManager) (size : number) :
  (result (Checked.setMaxHistorySize size h) = Thrown "Invalid history size" <->
   non_positive_or_non_integer size) /\
  (non_positive_or_non_integer size ->
   state (Checked.setMaxHistorySize size h) = h) /\
  (forall n : Z,
      size = Int n -> 0 < n ->
      result (Checked.setMaxHistorySize size h) = Returned tt /\
      maxHistorySize (state (Checked.setMaxHistorySize size h)) = n /\
      snapshots (state (Checked.setMaxHistorySize size h)) =
        drop (Z.to_nat (Z.of_nat (length (snapshots h)) - n)) (snapshots h) /\
      Z.of_nat (length (snapshots (state (Checked.setMaxHistorySize size h)))) =
        Z.min (Z.of_nat (length (snapshots h))) n /\
      (-1 <= currentIndex h < Z.of_nat (length (snapshots h)) ->
       -1 <= currentIndex (state (Checked.setMaxHistorySize size h))
          < Z.of_nat (length (snapshots (state (Checked.setMaxHistorySize size h)))) /\
       (Z.of_nat (length (snapshots h)) - n <= currentIndex h ->
        index (snapshots (state (Checked.setMaxHistorySize size h)))
              (currentIndex (state (Checked.setMaxHistorySize size h))) =
          index (snapshots h) (currentIndex h)) /\
       (0 <= currentIndex h < Z.of_nat (length (snapshots h)) - n ->
        currentIndex (state (Checked.setMaxHistorySize size h)) = 0))).
Proof.
  split; [|split].
  - unfold Checked.setMaxHistorySize. run_method.
    destruct size; decide_guard; cbn [non_positive_or_non_integer];
      try (split; [intros _; first [lia | exact I] | reflexivity]).
    unfold id; cbn. destruct (_ >? _); cbn; (split; [discriminate | lia]).
  - unfold Checked.setMaxHistorySize. run_method.
    destruct size; decide_guard; cbn [non_positive_or_non_integer];
      try reflexivity.
    intros Hle. lia.
  - intros n -> Hn. rewrite setMaxHistorySize_eq by exact Hn.
    unfold result, state; cbn [fst snd].
    destruct (Z.gtb_spec (Z.of_nat (length (snapshots h))) n) as [Hgt|Hle];
      cbn [snapshots currentIndex maxHistorySize].
    + split; [reflexivity|]. split; [reflexivity|]. split; [reflexivity|].
      rewrite length_drop. split; [lia|].
      intros Hidx. split; [lia|]. split.
      * intros Hkept. replace (Z.max 0 _)
          with (currentIndex h - (Z.of_nat (length (snapshots h)) - n)) by lia.
        apply index_drop. lia.
      * intros Hdropped. lia.
    + split; [reflexivity|]. split; [reflexivity|].
      replace (Z.to_nat (Z.of_nat (length (snapshots h)) - n)) with 0%nat by lia.
      split; [reflexivity|]. split; [lia|].
      intros Hidx. split; [lia|]. split; [reflexivity|]. lia.
Qed.

Lemma setMaxHistorySize_keeps_newest_witness :
  let h := history (PlainSession.run
             [PlainSession.SaveState 1; PlainSession.Write "a";
              PlainSession.SaveState 2; PlainSession.Write "b";
              PlainSession.SaveState 3; PlainSession.Undo] new_World) in
  state (Checked.setMaxHistorySize (Int 0) h) = h /\
  Z.of_nat (length (snapshots (state (Checked.setMaxHistorySize (Int 2) h)))) =
    Z.min 3 2 /\
  index (snapshots (state (Checked.setMaxHistorySize (Int 2) h)))
        (currentIndex (state (Checked.setMaxHistorySize (Int 2) h))) =
    index (snapshots h) (currentIndex h) /\
  currentIndex (state (Checked.setMaxHistorySize (Int 1)
                         (set_currentIndex 0 h))) = 0.
Proof.
  set (h := history (PlainSession.run
             [PlainSession.SaveState 1; PlainSession.Write "a";
              PlainSession.SaveState 2; PlainSession.Write "b";
              PlainSession.SaveState 3; PlainSession.Undo] new_World)).
  cbv zeta.
  destruct (setMaxHistorySize_keeps_newest h (Int 0)) as (_ & Hrejected & _).
  destruct (setMaxHistorySize_keeps_newest h (Int 2)) as (_ & _ & Htwo).
  destruct (Htwo 2 eq_refl) as (_ & _ & _ & Hlen & Hidx); [lia|].
  destruct Hidx as (_ & Hkept & _); [simpl; lia|].
  destruct (setMaxHistorySize_keeps_newest (set_currentIndex 0 h) (Int 1))
    as (_ & _ & Hone).
  destruct (Hone 1 eq_refl) as (_ & _ & _ & _ & Hidx1); [lia|].
  destruct Hidx1 as (_ & _ & Hdropped); [simpl; lia|].
  split; [apply Hrejected; simpl; lia|].
  split; [exact Hlen|].
  split; [apply Hkept; simpl; lia|].
  apply Hdropped. simpl; lia.
Defined.

(** What [saveState] does when the constructor rejects the editor's values:
    the snapshots beyond [currentIndex] are already gone, nothing is
    appended, and the error is the constructor's. *)
Lemma checked_saveState_rejected (now : Z) (w : World) :
  cursorPosition (editor w) < 0 \/ fontSize (editor w) <= 0 ->
  exists error : string,
    (error = "Invalid cursor position"%string \/ error = "Invalid font size"%string) /\
    Checked.saveState now w =
      (Thrown error,
       {| history := set_snapshots
                       (slice0 (snapshots (history w)) (currentIndex (history w) + 1))
                       (history w);
          editor := editor w |}).
Proof.
  intros Hbad.
  unfold Checked.saveState, Checked.createSnapshot, Checked.new_EditorSnapshot.
  run_method. cbn [lt0 le0 isInteger negb].
  destruct (Z.ltb_spec (cursorPosition (editor w)) 0); cbn [orb].
  - eexists. split; [left; reflexivity|]. reflexivity.
  - destruct (Z.leb_spec (fontSize (editor w)) 0); cbn [orb]; [|lia].
    eexists. split; [right; reflexivity|]. reflexivity.
Qed.

(** X10. The checked [EditorSnapshot] constructor throws "Invalid cursor
    position" exactly when the cursor is negative or not an integer, and
    "Invalid font size" exactly when the cursor passes and the font size is
    at most zero or not an integer.  Every snapshot it returns carries the
    values and the clock reading it was given and passes [isValid()], so
    [saveState] never throws "Invalid snapshot created". *)
Theorem new_EditorSnapshot_validates (now : Z) (text : string)
    (cursor size : number) :
  (Checked.new_EditorSnapshot now text cursor size =
     Thrown "Invalid cursor position" <->
   negative_or_non_integer cursor) /\
  (Checked.new_EditorSnapshot now text cursor size = Thrown "Invalid font size" <->
   ~ negative_or_non_integer cursor /\ non_positive_or_non_integer size) /\
  (forall s : EditorSnapshot,
      Checked.new_EditorSnapshot now text cursor size = Returned s ->
      cursor = Int (getCursorPosition s) /\ size = Int (getFontSize s) /\
      getContent s = text /\ getTimestamp s = now /\
      Checked.isValid s = true) /\
  (forall (w : World) (now' : Z),
      result (Checked.saveState now' w) <> Thrown "Invalid snapshot created").
Proof.
  split; [|split; [|split]].
  - unfold Checked.new_EditorSnapshot.
    destruct cursor, size; decide_guard; cbn [negative_or_non_integer];
      split; intros Hx; try reflexivity; try exact I; try discriminate; lia.
  - unfold Checked.new_EditorSnapshot.
    destruct cursor, size; decide_guard;
      cbn [negative_or_non_integer non_positive_or_non_integer];
      split; intros Hx; try reflexivity; try discriminate;
      try (split; [lia | first [lia | exact I]]);
      try (destruct Hx as [Hx1 Hx2];
           first [lia | exfalso; apply Hx1; first [lia | exact I]]).
  - intros s. unfold Checked.new_EditorSnapshot.
    destruct cursor, size; decide_guard; intros Hx; try discriminate.
    injection Hx as <-. cbn. unfold Checked.isValid; cbn.
    repeat split. apply andb_true_iff.
    split; [apply Z.geb_le | apply Z.gtb_lt]; lia.
  - intros w now'.
    destruct (Z.ltb_spec (cursorPosition (editor w)) 0) as [Hc|Hc];
      [|destruct (Z.leb_spec (fontSize (editor w)) 0) as [Hf|Hf]].
    + destruct (checked_saveState_rejected now' w (or_introl Hc))
        as (error & [-> | ->] & ->); discriminate.
    + destruct (checked_saveState_rejected now' w (or_intror Hf))
        as (error & [-> | ->] & ->); discriminate.
    + rewrite checked_saveState_eq, saveState_eq by assumption. discriminate.
Qed.

Lemma new_EditorSnapshot_validates_witness :
  Checked.isValid
    {| getContent := "Hello"; getCursorPosition := 3; getFontSize := 12;
       getTimestamp := 7 |} = true.
Proof.
  refine (proj2 (proj2 (proj2 (proj2 (proj1 (proj2 (proj2
            (new_EditorSnapshot_validates 7 "Hello" (Int 3) (Int 12))))
            {| getContent := "Hello"; getCursorPosition := 3; getFontSize := 12;
               getTimestamp := 7 |} _))))).
  reflexivity.
Defined.

End CaretakerMaintenance.

(* ===================================================================== *)
(** ** Editing at the cursor *)
(* ===================================================================== *)

Section Editing.
Import Js PlainSession.




(** X11. When the content splits as [pre ++ post] with the cursor right
    after [pre], [write(text)] leaves [pre ++ text ++ post], moves the
    cursor to the end of the inserted text and keeps the font size; the
    checked [write] does the same for every non-empty [text]. *)
Theorem write_inserts_at_cursor (e : TextEditor) (text pre post : string) :
  content e = (pre ++ post)%string ->
  Z.of_nat (String.length pre) = cursorPosition e ->
  Plain.write text e =
    (Returned tt,
     {| content := (pre ++ text ++ post)%string;
        cursorPosition := Z.of_nat (String.length (pre ++ text));
        fontSize := fontSize e |}) /\
  (text <> EmptyString -> Checked.write text e = Plain.write text e).
Proof.
  intros Hcontent Hcursor. split; [|apply checked_write_eq].
  rewrite write_eq, Hcontent, <- Hcursor.
  rewrite substring_prefix, substring_suffix by (rewrite length_append; lia).
  rewrite Nat2Z.id, str_take_app, str_drop_app, length_append.
  do 2 f_equal. lia.
Qed.

Lemma write_inserts_at_cursor_witness :
  Plain.write "big " {| content := "a dog"; cursorPosition := 2; fontSize := 12 |} =
    (Returned tt,
     {| content := "a big dog"; cursorPosition := 6; fontSize := 12 |}).
Proof.
  refine (proj1 (write_inserts_at_cursor
                   {| content := "a dog"; cursorPosition := 2; fontSize := 12 |}
                   "big " "a " "dog" _ _)); reflexivity.
Defined.









End Editing.

(* ===================================================================== *)
(** ** Commands and the invoker *)
(* ===================================================================== *)

Section CommandClaims.
Import Js CheckedCommands.

Lemma edited_result (command : Command) (e : TextEditor) :
  constructed command ->
  match command with
  | WriteCommand text => Checked.write text e
  | DeleteCommand count => Checked.delete (Int count) e
  | FormatCommand fontSize => Checked.setFontSize (Int fontSize) e
  end = (Returned tt, edited command e).
Proof.
  destruct command as [text|count|size]; cbn [constructed edited]; intros Hc.
  - rewrite checked_write_eq by exact Hc. reflexivity.
  - rewrite checked_delete_eq, delete_eq by exact Hc. reflexivity.
  - unfold Checked.setFontSize. run_method. decide_guard; [lia|reflexivity].
Qed.

Lemma execute_eq (now : Z) (command : Command) (w : World) :
  0 <= cursorPosition (editor w) -> 0 < fontSize (editor w) ->
  constructed command ->
  execute now command w =
    (Returned tt,
     {| history := history (state (Plain.saveState now w));
        editor := edited command (editor w) |}).
Proof.
  intros Hcur Hf Hc.
  pose proof (edited_result command (editor w) Hc) as Hedit.
  destruct command as [text|count|size]; unfold execute;
    unfold Checked.rethrowing, try_catch, mbind, M_bind;
    rewrite checked_saveState_eq, saveState_eq by assumption;
    unfold on_editor; cbn [editor]; rewrite Hedit; reflexivity.
Qed.

Lemma edited_ok (command : Command) (e : TextEditor) :
  editor_ok e -> editor_ok (edited command e).
Proof.
  destruct command; cbn [edited].
  - apply checked_write_ok.
  - apply checked_delete_ok.
  - apply checked_setFontSize_ok.
Qed.

Lemma execute_ok (now : Z) (command : Command) (w : World) :
  world_ok w -> constructed command ->
  world_ok (state (execute now command w)).
Proof.
  intros Hw Hc. pose proof Hw as ((Hcur & Hf) & Hok & Hall).
  unfold cursor_in_text in Hcur.
  rewrite execute_eq by (assumption || lia).
  pose proof (checked_saveState_ok now w Hw) as (_ & Hok1 & Hall1).
  rewrite checked_saveState_eq in Hok1, Hall1 by lia.
  split; [|split; assumption].
  apply edited_ok. split; assumption.
Qed.

(** X14. The checked command constructors accept exactly a non-empty text,
    a non-negative integer count and a positive integer font size.  In every
    reachable state of the checked classes, [execute()] of a constructed
    command never throws: it leaves the caretaker as [saveState] alone would,
    with the pre-command state of the editor stored at [currentIndex], and
    the editor as the command's edit leaves it; a delete command whose count
    exceeds the cursor still saves a snapshot while the document stays as it
    was. *)
Theorem constructed_command_executes (w : World) (now : Z) (command : Command) :
  CheckedSession.reachable w ->
  constructed command ->
  (forall text : string,
      new_WriteCommand text = Returned (WriteCommand text) <-> text <> EmptyString) /\
  (forall count : number,
      (exists c, new_DeleteCommand count = Returned c) <->
      ~ negative_or_non_integer count) /\
  (forall size : number,
      (exists c, new_FormatCommand size = Returned c) <->
      ~ non_positive_or_non_integer size) /\
  execute now command w =
    (Returned tt,
     {| history := history (state (Checked.saveState now w));
        editor := edited command (editor w) |}) /\
  index (snapshots (history (state (execute now command w))))
        (currentIndex (history (state (execute now command w)))) =
    Some (snapshot_of now (editor w)) /\
  (forall count : Z,
      command = DeleteCommand count -> cursorPosition (editor w) < count ->
      editor (state (execute now command w)) = editor w).
Proof.
  intros Hreach Hc.
  pose proof (checked_reachable_ok w Hreach) as Hw.
  pose proof Hw as ((Hcur & Hf) & Hok & _). unfold cursor_in_text in Hcur.
  assert (Hexec := execute_eq now command w (proj1 Hcur) Hf Hc).
  split; [|split; [|split; [|split; [|split]]]].
  - intros text. unfold new_WriteCommand.
    destruct text; cbn; split; intros Hx; congruence.
  - intros count. unfold new_DeleteCommand.
    destruct count; decide_guard; cbn [negative_or_non_integer];
      split; intros Hx;
      try (destruct Hx as [c Hx]; discriminate);
      try (eexists; reflexivity); try lia; try (exfalso; apply Hx; exact I).
  - intros size. unfold new_FormatCommand.
    destruct size; decide_guard; cbn [non_positive_or_non_integer];
      split; intros Hx;
      try (destruct Hx as [c Hx]; discriminate);
      try (eexists; reflexivity); try lia; try (exfalso; apply Hx; exact I).
  - rewrite Hexec, checked_saveState_eq by lia. reflexivity.
  - rewrite Hexec. unfold state at 1 2; cbn [snd history].
    exact (proj1 (undo_after_saveState w now [] Hok eq_refl)).
  - intros count -> Hlt. rewrite Hexec. unfold state; cbn [snd editor edited].
    rewrite checked_delete_eq, delete_eq by exact Hc. cbn [snd].
    destruct (Z.geb_spec (cursorPosition (editor w)) count); [lia|reflexivity].
Qed.

Lemma constructed_command_executes_witness :
  let w := CheckedSession.run
             [CheckedSession.SaveState 1; CheckedSession.Write "Hi"] new_World in
  execute 2 (DeleteCommand 5) w =
    (Returned tt,
     {| history := history (state (Checked.saveState 2 w));
        editor := edited (DeleteCommand 5) (editor w) |}) /\
  editor (state (execute 2 (DeleteCommand 5) w)) = editor w.
Proof.
  assert (Hreach : CheckedSession.reachable
            (CheckedSession.run
               [CheckedSession.SaveState 1; CheckedSession.Write "Hi"] new_World)).
  { eexists. reflexivity. }
  assert (Hc : constructed (DeleteCommand 5)) by (simpl; lia).
  destruct (constructed_command_executes _ 2 (DeleteCommand 5) Hreach Hc)
    as (_ & _ & _ & Hexec & _ & Hnoop).
  split; [exact Hexec|]. apply (Hnoop 5); [reflexivity | simpl; lia].
Defined.

Lemma executeCommand_eq (now : Z) (command : Command) (inv : Invoker) :
  world_ok (objects inv) -> constructed command ->
  executeCommand now command inv =
    (Returned tt,
     {| objects := state (execute now command (objects inv));
        commands := commands inv ++ [command] |}).
Proof.
  intros ((Hcur & Hf) & _) Hc. unfold cursor_in_text in Hcur.
  unfold executeCommand, Checked.rethrowing, try_catch, mbind, M_bind, on_objects.
  rewrite execute_eq by (assumption || lia). reflexivity.
Qed.

(** When [execute()] throws, the invoker records nothing and passes the
    error on; its objects stay as [execute()] left them. *)
Lemma executeCommand_thrown (now : Z) (command : Command) (inv : Invoker)
    (error : string) :
  result (execute now command (objects inv)) = Thrown error ->
  executeCommand now command inv =
    (Thrown error,
     {| objects := state (execute now command (objects inv));
        commands := commands inv |}).
Proof.
  unfold executeCommand, Checked.rethrowing, try_catch, mbind, M_bind, on_objects.
  unfold result, state.
  destruct (execute now command (objects inv)) as [[[]|e] w']; cbn;
    intros Hx; [discriminate|]. injection Hx as ->. reflexivity.
Qed.

Lemma executeCommands_run (cmds : list (Z * Command)) (inv : Invoker) :
  world_ok (objects inv) ->
  Forall (fun nc => constructed (snd nc)) cmds ->
  exists inv' : Invoker,
    executeCommands cmds inv = (Returned tt, inv') /\
    world_ok (objects inv') /\
    commands inv' = commands inv ++ map snd cmds /\
    maxHistorySize (history (objects inv')) = maxHistorySize (history (objects inv)) /\
    ((1 <= length cmds)%nat ->
     at_tip (history (objects inv')) /\
     Z.of_nat (length (snapshots (history (objects inv')))) =
       Z.min (currentIndex (history (objects inv)) + 1 + Z.of_nat (length cmds))
             (maxHistorySize (history (objects inv)))).
Proof.
  intros Hw Hall. revert inv Hw.
  induction Hall as [|[now command] cmds Hc Hall IH]; intros inv Hw.
  - exists inv. split; [reflexivity|]. split; [exact Hw|].
    split; [now rewrite app_nil_r|]. split; [reflexivity|]. simpl; lia.
  - cbn [snd] in Hc.
    set (inv1 := {| objects := state (execute now command (objects inv));
                    commands := commands inv ++ [command] |}).
    assert (Hw1 : world_ok (objects inv1)) by (apply execute_ok; assumption).
    destruct (IH inv1 Hw1) as (inv' & Hrun & Hw' & Hcmds & Hmax & Hlen).
    exists inv'.
    pose proof Hw as ((Hcur & Hf) & Hok & _). unfold cursor_in_text in Hcur.
    pose proof (saveState_ledger now (objects inv) Hok)
      as (Hok1 & Htip1 & Hmax1 & Hlen1). cbv zeta in Hok1, Htip1, Hmax1, Hlen1.
    assert (Hh1 : history (objects inv1) =
                  history (state (Plain.saveState now (objects inv)))).
    { unfold inv1; cbn [objects].
      rewrite execute_eq by (assumption || lia). reflexivity. }
    split.
    { cbn [executeCommands]. unfold mbind, M_bind.
      rewrite executeCommand_eq by assumption. exact Hrun. }
    split; [exact Hw'|].
    split; [rewrite Hcmds; unfold inv1; cbn [commands map];
            rewrite <- app_assoc; reflexivity|].
    split; [rewrite Hmax, Hh1; exact Hmax1|].
    intros _. rewrite Hh1 in Hlen, Hmax.
    destruct cmds as [|nc cmds'].
    + cbn [executeCommands] in Hrun. injection Hrun as <-.
      rewrite Hh1. split; [exact Htip1|]. rewrite Hlen1. simpl length. lia.
    + destruct Hlen as [Htip' Hlen']; [simpl; lia|].
      split; [exact Htip'|]. rewrite Hlen'.
      unfold at_tip in Htip1. destruct Hok as (Hidx & _ & _).
      rewrite Htip1, Hlen1, Hmax1. simpl length. lia.
Qed.

(** X15. In every reachable state of the checked classes, an invoker that
    executes constructed commands never fails: each command is appended to
    its record, so [getExecutedCommands()] grows by the number of commands,
    and after [n >= 1] commands the caretaker points at its newest snapshot
    and stores [min (currentIndex + 1 + n) maxHistorySize] snapshots, counted
    from the index before the first command.  When [execute()] throws, the
    error is passed on and the command is not recorded.
    [clearCommandHistory()] empties the record and leaves the objects. *)
Theorem invoker_counts_executed (inv : Invoker) (cmds : list (Z * Command)) :
  CheckedSession.reachable (objects inv) ->
  Forall (fun nc => constructed (snd nc)) cmds ->
  (exists inv' : Invoker,
      executeCommands cmds inv = (Returned tt, inv') /\
      commands inv' = commands inv ++ map snd cmds /\
      getExecutedCommands inv' =
        getExecutedCommands inv + Z.of_nat (length cmds) /\
      ((1 <= length cmds)%nat ->
       currentIndex (history (objects inv')) =
         Z.of_nat (length (snapshots (history (objects inv')))) - 1 /\
       Z.of_nat (length (snapshots (history (objects inv')))) =
         Z.min (currentIndex (history (objects inv)) + 1 + Z.of_nat (length cmds))
               (maxHistorySize (history (objects inv)))) /\
      clearCommandHistory inv' =
        (Returned tt, {| objects := objects inv'; commands := [] |})) /\
  (forall (now : Z) (command : Command) (error : string),
      result (execute now command (objects inv)) = Thrown error ->
      result (executeCommand now command inv) = Thrown error /\
      commands (state (executeCommand now command inv)) = commands inv).
Proof.
  intros Hreach Hall. split.
  - destruct (executeCommands_run cmds inv
                (checked_reachable_ok _ Hreach) Hall)
      as (inv' & Hrun & _ & Hcmds & _ & Hlen).
    exists inv'. split; [exact Hrun|]. split; [exact Hcmds|].
    split; [|split; [exact Hlen | reflexivity]].
    unfold getExecutedCommands. rewrite Hcmds, length_app, length_map. lia.
  - intros now command error Hthrown.
    rewrite (executeCommand_thrown now command inv error Hthrown).
    split; reflexivity.
Qed.

Lemma invoker_counts_executed_witness :
  let inv := new_EditorInvoker (state (Checked.saveState 0 new_World)) in
  exists inv' : Invoker,
    executeCommands [(1, WriteCommand "Hello World"); (2, FormatCommand 16);
                     (3, DeleteCommand 6)] inv = (Returned tt, inv') /\
    getExecutedCommands inv' = 0 + 3 /\
    Z.of_nat (length (snapshots (history (objects inv')))) = Z.min (0 + 1 + 3) 50.
Proof.
  assert (Hreach : CheckedSession.reachable
            (objects (new_EditorInvoker (state (Checked.saveState 0 new_World))))).
  { exists [CheckedSession.SaveState 0]. reflexivity. }
  assert (Hall : Forall (fun nc : Z * Command => constructed (snd nc))
            [(1, WriteCommand "Hello World"); (2, FormatCommand 16);
             (3, DeleteCommand 6)]).
  { repeat constructor; simpl; (discriminate || lia). }
  destruct (proj1 (invoker_counts_executed _ _ Hreach Hall))
    as (inv' & Hrun & _ & Hcount & Hlen & _).
  exists inv'. split; [exact Hrun|]. split; [exact Hcount|].
  apply Hlen. simpl; lia.
Defined.

End CommandClaims.

(* ===================================================================== *)
(** ** Timestamps *)
(* ===================================================================== *)

Section Timestamps.
Import Js PlainSession.

Lemma chronological_nil : chronological [].
Proof. intros i j a b _ Ha. rewrite lookup_nil in Ha. discriminate. Qed.

Lemma chronological_take (n : nat) (arr : list EditorSnapshot) :
  chronological arr -> chronological (take n arr).
Proof.
  intros Harr i j a b Hij Ha Hb.
  apply lookup_take_Some in Ha as [Ha _]. apply lookup_take_Some in Hb as [Hb _].
  exact (Harr i j a b Hij Ha Hb).
Qed.

Lemma chronological_drop (n : nat) (arr : list EditorSnapshot) :
  chronological arr -> chronological (drop n arr).
Proof.
  intros Harr i j a b Hij Ha Hb. rewrite lookup_drop in Ha, Hb.
  apply (Harr (n + i)%nat (n + j)%nat a b); [lia | assumption ..].
Qed.

Lemma chronological_push (x : EditorSnapshot) (arr : list EditorSnapshot) :
  chronological arr ->
  Forall (fun s => getTimestamp s <= getTimestamp x) arr ->
  chronological (push x arr).
Proof.
  intros Harr Hall i j a b Hij Ha Hb. unfold push in *.
  apply lookup_app_Some in Ha as [Ha|[Hi Ha]];
    apply lookup_app_Some in Hb as [Hb|[Hj Hb]].
  - exact (Harr i j a b Hij Ha Hb).
  - apply list_lookup_singleton_Some in Hb as [_ <-].
    exact (proj1 (Forall_lookup _ arr) Hall i a Ha).
  - apply lookup_lt_Some in Hb. lia.
  - apply list_lookup_singleton_Some in Ha as [_ <-].
    apply list_lookup_singleton_Some in Hb as [_ <-]. lia.
Qed.

Lemma clock_readings_snoc (cs : list call) (c : call) :
  clock_readings (cs ++ [c]) =
  clock_readings cs ++ match c with SaveState now => [now] | _ => [] end.
Proof.
  unfold clock_readings. rewrite omap_app. f_equal. destruct c; reflexivity.
Qed.

(** Each stored timestamp is one of the clock readings of the session. *)
Lemma perform_timestamps (c : call) (cs : list call) (w : World) :
  ledger_ok (history w) ->
  (forall (i j : nat) (t u : Z),
      (i <= j)%nat -> clock_readings (cs ++ [c]) !! i = Some t ->
      clock_readings (cs ++ [c]) !! j = Some u -> t <= u) ->
  chronological (snapshots (history w)) /\
  Forall (fun s => getTimestamp s ∈ clock_readings cs) (snapshots (history w)) ->
  chronological (snapshots (history (perform c w))) /\
  Forall (fun s => getTimestamp s ∈ clock_readings (cs ++ [c]))
         (snapshots (history (perform c w))).
Proof.
  intros Hok Hclock [Hchron Hin].
  assert (Hin' : Forall (fun s => getTimestamp s ∈ clock_readings (cs ++ [c]))
                        (snapshots (history w))).
  { eapply Forall_impl; [exact Hin|]. intros s Hs.
    rewrite clock_readings_snoc. apply elem_of_app. left. exact Hs. }
  destruct c; cbn [perform]; rewrite ?on_editor_state, ?on_history_state;
    cbn [history]; try (split; assumption).
  - rewrite saveState_eq. unfold state; cbn [snd history].
    assert (Hp : chronological (pushed now w) /\
                 Forall (fun s => getTimestamp s ∈ clock_readings (cs ++ [SaveState now]))
                        (pushed now w)).
    { unfold pushed. split.
      - apply chronological_push.
        + unfold slice0. apply chronological_take, Hchron.
        + unfold slice0. apply Forall_take.
          eapply Forall_impl; [exact Hin|]. intros s Hs. cbn.
          apply list_elem_of_lookup in Hs as [i Hi].
          apply (Hclock i (length (clock_readings cs)) (getTimestamp s) now).
          * apply lookup_lt_Some in Hi. lia.
          * rewrite clock_readings_snoc. apply lookup_app_l_Some. exact Hi.
          * rewrite clock_readings_snoc. rewrite lookup_app_r by lia.
            rewrite Nat.sub_diag. reflexivity.
      - unfold push. apply Forall_app. split.
        + unfold slice0. apply Forall_take, Hin'.
        + apply Forall_cons. split; [|apply Forall_nil_2]. cbn.
          rewrite clock_readings_snoc. apply elem_of_app. right.
          apply list_elem_of_singleton. reflexivity. }
    destruct Hp as [Hp1 Hp2].
    destruct (_ >? _); cbn [snapshots].
    + split; [apply chronological_drop, Hp1 | apply Forall_drop, Hp2].
    + split; assumption.
  - rewrite undo_eq. destruct (_ >? _); [|split; assumption].
    destruct (index _ _); unfold state; cbn; split; assumption.
  - rewrite redo_eq. destruct (_ <? _); [|split; assumption].
    destruct (index _ _); unfold state; cbn; split; assumption.
  - split; [apply chronological_nil | apply Forall_nil_2].
Qed.

(** X16. When the clock readings of the successive [saveState] calls of a
    session of the unchecked classes never decrease, the snapshots the
    caretaker stores are in the order of their timestamps, oldest first,
    whatever is undone, redone, evicted or cleared in between. *)
Theorem snapshots_chronological (cs : list call) :
  (forall (i j : nat) (t u : Z),
      (i <= j)%nat -> clock_readings cs !! i = Some t ->
      clock_readings cs !! j = Some u -> t <= u) ->
  forall (i j : nat) (a b : EditorSnapshot),
    (i <= j)%nat ->
    snapshots (history (run cs new_World)) !! i = Some a ->
    snapshots (history (run cs new_World)) !! j = Some b ->
    getTimestamp a <= getTimestamp b.
Proof.
  intros Hclock.
  change (chronological (snapshots (history (run cs new_World)))).
  cut (chronological (snapshots (history (run cs new_World))) /\
       Forall (fun s => getTimestamp s ∈ clock_readings cs)
              (snapshots (history (run cs new_World)))); [tauto|].
  induction cs as [|c cs IH] using rev_ind.
  - split; [apply chronological_nil | apply Forall_nil_2].
  - rewrite run_snoc. apply perform_timestamps.
    + apply run_ledger, new_ledger_ok.
    + exact Hclock.
    + apply IH. intros i j t u Hij Ht Hu.
      apply (Hclock i j t u Hij); rewrite clock_readings_snoc;
        apply lookup_app_l_Some; assumption.
Qed.

Lemma snapshots_chronological_witness :
  getTimestamp (snapshot_of 10 new_TextEditor) <=
  getTimestamp (snapshot_of 35 new_TextEditor).
Proof.
  refine (snapshots_chronological
            [SaveState 10; Write "a"; SaveState 20; Write "b"; SaveState 20;
             Undo; Undo; SaveState 35] _ 0%nat 1%nat
            (snapshot_of 10 new_TextEditor) (snapshot_of 35 new_TextEditor) _ _ _).
  - intros i j t u Hij Ht Hu. cbn in Ht, Hu.
    destruct i as [|[|[|[|i]]]]; destruct j as [|[|[|[|j]]]];
      cbn in Ht, Hu; try discriminate; try lia;
      injection Ht as <-; injection Hu as <-; lia.
  - lia.
  - reflexivity.
  - reflexivity.
Defined.

End Timestamps.

(* ===================================================================== *)
(** ** Walking through the history *)
(* ===================================================================== *)

Section Walking.
Import Js PlainSession.

Lemma set_currentIndex_same (h : HistoryManager) :
  set_currentIndex (currentIndex h) h = h.
Proof. destruct h; reflexivity. Qed.

Lemma undo_iter (k : nat) (w : World) :
  -1 <= currentIndex (history w) < Z.of_nat (length (snapshots (history w))) ->
  Z.of_nat k <= currentIndex (history w) ->
  history (Nat.iter k (fun w => state (Plain.undo w)) w) =
    set_currentIndex (currentIndex (history w) - Z.of_nat k) (history w) /\
  ((1 <= k)%nat ->
   exists s : EditorSnapshot,
     index (snapshots (history w)) (currentIndex (history w) - Z.of_nat k) = Some s /\
     editor (Nat.iter k (fun w => state (Plain.undo w)) w) = restored s).
Proof.
  intros Hidx. induction k as [|k IH]; intros Hk.
  - simpl Nat.iter. rewrite Z.sub_0_r, set_currentIndex_same.
    split; [reflexivity | lia].
  - destruct IH as [Hh _]; [lia|]. rewrite Nat.iter_succ.
    set (wk := Nat.iter k (fun w => state (Plain.undo w)) w) in *.
    rewrite undo_eq, Hh. cbn [set_currentIndex currentIndex snapshots].
    destruct (Z.gtb_spec (currentIndex (history w) - Z.of_nat k) 0); [|lia].
    replace (currentIndex (history w) - Z.of_nat k - 1)
      with (currentIndex (history w) - Z.of_nat (S k)) by lia.
    destruct (index_in_range (snapshots (history w))
                (currentIndex (history w) - Z.of_nat (S k))) as [s Hs]; [lia|].
    rewrite Hs. unfold state; cbn [snd history editor].
    split; [reflexivity|]. intros _. exists s. split; reflexivity.
Qed.

Lemma redo_iter (k : nat) (w : World) :
  -1 <= currentIndex (history w) < Z.of_nat (length (snapshots (history w))) ->
  currentIndex (history w) + Z.of_nat k < Z.of_nat (length (snapshots (history w))) ->
  history (Nat.iter k (fun w => state (Plain.redo w)) w) =
    set_currentIndex (currentIndex (history w) + Z.of_nat k) (history w) /\
  ((1 <= k)%nat ->
   exists s : EditorSnapshot,
     index (snapshots (history w)) (currentIndex (history w) + Z.of_nat k) = Some s /\
     editor (Nat.iter k (fun w => state (Plain.redo w)) w) = restored s).
Proof.
  intros Hidx. induction k as [|k IH]; intros Hk.
  - simpl Nat.iter. rewrite Z.add_0_r, set_currentIndex_same.
    split; [reflexivity | lia].
  - destruct IH as [Hh _]; [lia|]. rewrite Nat.iter_succ.
    set (wk := Nat.iter k (fun w => state (Plain.redo w)) w) in *.
    rewrite redo_eq, Hh. cbn [set_currentIndex currentIndex snapshots].
    destruct (Z.ltb_spec (currentIndex (history w) + Z.of_nat k)
                (Z.of_nat (length (snapshots (history w))) - 1)); [|lia].
    replace (currentIndex (history w) + Z.of_nat k + 1)
      with (currentIndex (history w) + Z.of_nat (S k)) by lia.
    destruct (index_in_range (snapshots (history w))
                (currentIndex (history w) + Z.of_nat (S k))) as [s Hs]; [lia|].
    rewrite Hs. unfold state; cbn [snd history editor].
    split; [reflexivity|]. intros _. exists s. split; reflexivity.
Qed.

(** X17. In every reachable state of the unchecked classes with the
    caretaker at index [i]: [k] calls of [undo] in a row, for [1 <= k <= i],
    leave the stored snapshots as they are, the index at [i - k] and in the
    editor the snapshot stored there, and after [i] of them [undo] is
    refused, so the snapshot stored at [i] is never reached by undoing;
    [k] calls of [redo] in a row, for [1 <= k] and [i + k] within the array,
    leave the index at [i + k] and in the editor the snapshot stored
    there. *)
Theorem repeated_undo_redo (w : World) (k : nat) :
  reachable w ->
  (1 <= k)%nat ->
  (Z.of_nat k <= currentIndex (history w) ->
   snapshots (history (Nat.iter k (fun w => state (Plain.undo w)) w)) =
     snapshots (history w) /\
   currentIndex (history (Nat.iter k (fun w => state (Plain.undo w)) w)) =
     currentIndex (history w) - Z.of_nat k /\
   (exists s : EditorSnapshot,
       index (snapshots (history w)) (currentIndex (history w) - Z.of_nat k) = Some s /\
       editor (Nat.iter k (fun w => state (Plain.undo w)) w) = restored s) /\
   (Z.of_nat k = currentIndex (history w) ->
    result (Plain.undo (Nat.iter k (fun w => state (Plain.undo w)) w)) =
      Returned false)) /\
  (currentIndex (history w) + Z.of_nat k < Z.of_nat (length (snapshots (history w))) ->
   snapshots (history (Nat.iter k (fun w => state (Plain.redo w)) w)) =
     snapshots (history w) /\
   currentIndex (history (Nat.iter k (fun w => state (Plain.redo w)) w)) =
     currentIndex (history w) + Z.of_nat k /\
   (exists s : EditorSnapshot,
       index (snapshots (history w)) (currentIndex (history w) + Z.of_nat k) = Some s /\
       editor (Nat.iter k (fun w => state (Plain.redo w)) w) = restored s)).
Proof.
  intros Hreach Hk.
  destruct (reachable_ledger_ok w Hreach) as (Hidx & _).
  split.
  - intros Hle. destruct (undo_iter k w Hidx Hle) as [Hh Hs].
    rewrite Hh. cbn [set_currentIndex snapshots currentIndex].
    split; [reflexivity|]. split; [reflexivity|]. split; [exact (Hs Hk)|].
    intros Hall. rewrite undo_eq, Hh. cbn [set_currentIndex currentIndex].
    destruct (Z.gtb_spec (currentIndex (history w) - Z.of_nat k) 0);
      [lia | reflexivity].
  - intros Hlt. destruct (redo_iter k w Hidx Hlt) as [Hh Hs].
    rewrite Hh. cbn [set_currentIndex snapshots currentIndex].
    split; [reflexivity|]. split; [reflexivity|]. exact (Hs Hk).
Qed.

Lemma repeated_undo_redo_witness :
  let w := run [SaveState 1; Write "a"; SaveState 2; Write "b"; SaveState 3;
                Write "c"] new_World in
  currentIndex (history (Nat.iter 2 (fun w => state (Plain.undo w)) w)) = 2 - 2 /\
  result (Plain.undo (Nat.iter 2 (fun w => state (Plain.undo w)) w)) =
    Returned false /\
  currentIndex (history (Nat.iter 1 (fun w => state (Plain.redo w))
                           (Nat.iter 2 (fun w => state (Plain.undo w)) w))) = 0 + 1.
Proof.
  assert (Hreach : reachable
            (run [SaveState 1; Write "a"; SaveState 2; Write "b"; SaveState 3;
                  Write "c"] new_World)).
  { eexists. reflexivity. }
  assert (Hreach' : reachable
            (run [SaveState 1; Write "a"; SaveState 2; Write "b"; SaveState 3;
                  Write "c"; Undo; Undo] new_World)).
  { eexists. reflexivity. }
  destruct (repeated_undo_redo _ 2 Hreach) as [Hundo _]; [lia|].
  destruct Hundo as (_ & Hi & _ & Hstop); [simpl; lia|].
  destruct (repeated_undo_redo _ 1 Hreach') as [_ Hredo]; [lia|].
  destruct Hredo as (_ & Hj & _); [simpl; lia|].
  split; [exact Hi|]. split; [apply Hstop; reflexivity|]. exact Hj.
Defined.

End Walking.

(* ===================================================================== *)
(** ** Saving in the checked caretaker *)
(* ===================================================================== *)

Section CheckedSaving.
Import Js CheckedSession.



End CheckedSaving.
